(** * Lightbox controller of the portfolio gallery

  A shallow embedding of the client-side scripts
  [src/assets/scripts/utils.js], [a11y.js], [gallery.js] and
  [lightbox.js], and the properties of the lightbox state machine
  (index arithmetic, open/close lifecycle, focus memory, announcements,
  item hydration).

  Conventions of the embedding:
  - a DOM element is identified by a natural number ([elem]); the JS
    identity test [a === b] on elements is equality of identifiers;
  - the gallery markup is a tree of [node]s; the lightbox never mutates
    a gallery card, so the attributes of a card are read off the tree;
  - attributes and properties that the lightbox writes (on its root, on
    the dialog, on [main], on the image target) live in a store keyed
    by (element, attribute name);
  - JS numbers used as indices are integers ([Z]); [%] is the
    truncating remainder [Z.rem];
  - announcements and image preloads are outputs: every operation maps
    a state to a new state and the list of effects it emitted. *)

From stdpp Require Import base strings gmap list pretty.
From Stdlib Require Import ZArith Lia Ascii.

Open Scope Z_scope.

(** ** DOM model *)

Module Dom.

Definition elem := nat.

#[local] Unset Elimination Schemes.
Inductive node : Type :=
  Node (nid : elem) (tag : string) (nattrs : gmap string string)
       (classes : list string) (textContent : string)
       (children : list node).
#[local] Set Elimination Schemes.

Definition nid (n : node) : elem :=
  match n with Node i _ _ _ _ _ => i end.
Definition tag (n : node) : string :=
  match n with Node _ t _ _ _ _ => t end.
Definition nattrs (n : node) : gmap string string :=
  match n with Node _ _ a _ _ _ => a end.
Definition classes (n : node) : list string :=
  match n with Node _ _ _ c _ _ => c end.
Definition textContent (n : node) : string :=
  match n with Node _ _ _ _ t _ => t end.
Definition children (n : node) : list node :=
  match n with Node _ _ _ _ _ c => c end.

(** [a === b] on element references. *)
Definition same_node (a b : node) : bool := Nat.eqb (nid a) (nid b).

(** Proper descendants in document (pre-)order. *)
Fixpoint descendants (n : node) : list node :=
  match n with
  | Node _ _ _ _ _ cs =>
      (fix go (l : list node) : list node :=
         match l with
         | [] => []
         | c :: l' => c :: descendants c ++ go l'
         end) cs
  end.

(** The selectors the scripts use: a comma-separated list of simple
    selectors, each a tag name, [[attr]] or [.class]. *)
Inductive simple_selector :=
| ByTag (t : string)
| ByAttr (a : string)
| ByClass (c : string).

Definition selector := list simple_selector.

Definition has_class (c : string) (n : node) : bool :=
  existsb (String.eqb c) (classes n).

Definition has_attr (a : string) (n : node) : bool :=
  bool_decide (is_Some (nattrs n !! a)).

Definition matches_simple (n : node) (s : simple_selector) : bool :=
  match s with
  | ByTag t => String.eqb t (tag n)
  | ByAttr a => has_attr a n
  | ByClass c => has_class c n
  end.

Definition matches (sel : selector) (n : node) : bool :=
  existsb (matches_simple n) sel.

Definition querySelectorAll (root : node) (sel : selector) : list node :=
  List.filter (matches sel) (descendants root).

Definition querySelector (root : node) (sel : selector) : option node :=
  head (querySelectorAll root sel).

(** [n.getAttribute(a)]: [None] stands for [null]. *)
Definition getAttribute (n : node) (a : string) : option string :=
  nattrs n !! a.

End Dom.

Import Dom.

(** ** JS value helpers *)

Module Js.

(** Truthiness of a string-or-null value: [null], [undefined] and the
    empty string are falsy. *)
Definition truthy (v : option string) : bool :=
  match v with
  | Some s => negb (String.eqb s "")
  | None => false
  end.

(** [a || b] *)
Definition or (a b : option string) : option string :=
  if truthy a then a else b.

(** [a || b] on element references. *)
Definition or_elem (a b : option elem) : option elem :=
  match a with Some _ => a | None => b end.

(** [arr[i]] for a number [i]: [undefined] out of range. *)
Definition at_index {A} (arr : list A) (i : Z) : option A :=
  if i <? 0 then None else arr !! Z.to_nat i.

(** [arr.length] *)
Definition len {A} (arr : list A) : Z := Z.of_nat (length arr).

(** [`${n}`] for an integer. *)
Definition num (n : Z) : string := pretty n.

End Js.

(** ** The page and the run-time state *)

(** The element bundle of lightbox.js ([refs]), resolved once by
    [initRefs]; each handle may be [null]. *)
Record refs := mkRefs {
  root : option elem;
  dialog : option elem;
  closeBtn : option elem;
  img : option elem;
  caption : option elem;
  counter : option elem;
  prevBtn : option elem;
  nextBtn : option elem;
  backdrop : option elem
}.

(** What the scripts ask of the document: the gallery grid
    ([document.querySelector('[data-gallery-grid]')]), the main landmark
    ([document.querySelector('main')]), whether an element passes
    [instanceof HTMLElement] (a focused SVG element does not), whether
    [el.focus()] moves the focus to [el], and the tabbable descendants
    of a container ([getTabbables]). *)
Record document := mkDocument {
  grid : option node;
  main : option elem;
  is_html : elem -> bool;
  can_focus : elem -> bool;
  tabbables : elem -> list elem
}.

Inductive politeness := Polite | Assertive.

(** Outputs: a message handed to the shared live region, and an image
    whose download is started ([new Image().src = ...]). *)
Inductive effect :=
| Announce (p : politeness) (message : string)
| Preload (src : string).

(** Listeners registered for [keydown] on the document: the lightbox's
    own [onKeydown], and one [handleKeydown] closure per [trapFocus]
    call (told apart by a closure number). *)
Inductive listener :=
| OnKeydown
| HandleKeydown (closure : nat) (container : elem).

(** The closure [trapFocus] returns: it knows its own listener and the
    element that had the focus when the trap was installed. *)
Record release := mkRelease {
  rel_closure : nat;
  rel_prevActive : option elem
}.

(** The callback [trapFocus] hands to [queueMicrotask]. *)
Record focus_task := mkFocusTask {
  ft_initial : option elem;
  ft_container : elem
}.

Record state := mkState {
  (* lightbox.js: state *)
  items : list node;
  index : Z;
  releaseFocusFn : option release;
  (* a11y.js *)
  lastFocused : option elem;
  (* the DOM the scripts write to *)
  attr : gmap (elem * string) string;
  text : gmap elem string;
  activeElement : option elem;
  keydown : list listener;
  closures : nat;
  microtasks : list focus_task
}.

Definition with_items (v : list node) (s : state) : state :=
  mkState v (index s) (releaseFocusFn s) (lastFocused s) (attr s) (text s)
          (activeElement s) (keydown s) (closures s) (microtasks s).
Definition with_index (v : Z) (s : state) : state :=
  mkState (items s) v (releaseFocusFn s) (lastFocused s) (attr s) (text s)
          (activeElement s) (keydown s) (closures s) (microtasks s).
Definition with_releaseFocusFn (v : option release) (s : state) : state :=
  mkState (items s) (index s) v (lastFocused s) (attr s) (text s)
          (activeElement s) (keydown s) (closures s) (microtasks s).
Definition with_lastFocused (v : option elem) (s : state) : state :=
  mkState (items s) (index s) (releaseFocusFn s) v (attr s) (text s)
          (activeElement s) (keydown s) (closures s) (microtasks s).
Definition with_attr (v : gmap (elem * string) string) (s : state) : state :=
  mkState (items s) (index s) (releaseFocusFn s) (lastFocused s) v (text s)
          (activeElement s) (keydown s) (closures s) (microtasks s).
Definition with_text (v : gmap elem string) (s : state) : state :=
  mkState (items s) (index s) (releaseFocusFn s) (lastFocused s) (attr s) v
          (activeElement s) (keydown s) (closures s) (microtasks s).
Definition with_activeElement (v : option elem) (s : state) : state :=
  mkState (items s) (index s) (releaseFocusFn s) (lastFocused s) (attr s)
          (text s) v (keydown s) (closures s) (microtasks s).
Definition with_keydown (v : list listener) (s : state) : state :=
  mkState (items s) (index s) (releaseFocusFn s) (lastFocused s) (attr s)
          (text s) (activeElement s) v (closures s) (microtasks s).
Definition with_closures (v : nat) (s : state) : state :=
  mkState (items s) (index s) (releaseFocusFn s) (lastFocused s) (attr s)
          (text s) (activeElement s) (keydown s) v (microtasks s).
Definition with_microtasks (v : list focus_task) (s : state) : state :=
  mkState (items s) (index s) (releaseFocusFn s) (lastFocused s) (attr s)
          (text s) (activeElement s) (keydown s) (closures s) v.

(** An operation: the state it leaves and the effects it emitted. *)
Definition action := state -> state * list effect.

Definition skip : action := fun s => (s, []).

Definition andThen (a b : action) : action := fun s =>
  let '(s1, o1) := a s in
  let '(s2, o2) := b s1 in
  (s2, o1 ++ o2).

Notation "a >>> b" := (andThen a b) (at level 65, right associativity).

Definition update (f : state -> state) : action := fun s => (f s, []).
Definition emit (e : effect) : action := fun s => (s, [e]).
Definition when (b : bool) (a : action) : action := if b then a else skip.

(** The state an operation leaves, and what it emitted. *)
Definition run (a : action) (s : state) : state := fst (a s).
Definition out (a : action) (s : state) : list effect := snd (a s).

(** [el.setAttribute(k, v)], [el.removeAttribute(k)],
    [el.hasAttribute(k)] and [el.textContent = v] on the store. *)
Definition setAttribute (el : elem) (k v : string) : action :=
  update (fun s => with_attr (<[(el, k) := v]> (attr s)) s).
Definition removeAttribute (el : elem) (k : string) : action :=
  update (fun s => with_attr (delete (el, k) (attr s)) s).
Definition hasAttribute (el : elem) (k : string) (s : state) : bool :=
  bool_decide (is_Some (attr s !! (el, k))).
Definition setTextContent (el : elem) (v : string) : action :=
  update (fun s => with_text (<[el := v]> (text s)) s).

(** ** utils.js *)

Module Utils.
Section WithDocument.
Variable doc : document.

(** [qsa(root, sel)] *)
Definition qsa (root : node) (sel : selector) : list node :=
  querySelectorAll root sel.

(** [el.focus()]: the browser moves the focus when the element can take
    it, and does nothing otherwise. *)
Definition focus (el : elem) : action :=
  update (fun s => if can_focus doc el
                   then with_activeElement (Some el) s else s).

Definition is_closure (h : nat) (l : listener) : bool :=
  match l with
  | HandleKeydown h' _ => Nat.eqb h h'
  | OnKeydown => false
  end.

(** [document.removeEventListener('keydown', handleKeydown, false)] *)
Definition removeEventListener (h : nat) (l : list listener) : list listener :=
  List.filter (fun x => negb (is_closure h x)) l.

(** [trapFocus(container, initial)]: reads the focused element,
    registers a new [handleKeydown], queues the initial focus and
    returns the release closure. *)
Definition trapFocus (container : elem) (initial : option elem) (s : state)
  : release * state :=
  let h := closures s in
  let prevActive := activeElement s in
  (mkRelease h prevActive,
   with_microtasks (microtasks s ++ [mkFocusTask initial container])
     (with_closures (S h)
        (with_keydown (keydown s ++ [HandleKeydown h container]) s))).

(** Calling the closure [trapFocus] returned. *)
Definition call_release (r : release) : action :=
  update (fun s =>
            with_keydown (removeEventListener (rel_closure r) (keydown s)) s)
  >>> match rel_prevActive r with
      | Some p => focus p
      | None => skip
      end.

(** The queued callback:
    [(initial || getTabbables(container)[0] || container).focus?.()] *)
Definition run_focus_task (t : focus_task) : action :=
  focus (default (ft_container t)
           (Js.or_elem (ft_initial t) (head (tabbables doc (ft_container t))))).

Fixpoint run_focus_tasks (ts : list focus_task) : action :=
  match ts with
  | [] => skip
  | t :: ts' => run_focus_task t >>> run_focus_tasks ts'
  end.

(** The microtask checkpoint that follows every event handler. *)
Definition drain_microtasks : action := fun s =>
  run_focus_tasks (microtasks s) (with_microtasks [] s).

(** [liveRegion(message, politeness)] *)
Definition liveRegion (message : string) (p : politeness) : action :=
  emit (Announce p message).

Definition nextIndex (i len : Z) : Z := Z.rem (i + 1) len.
Definition prevIndex (i len : Z) : Z := Z.rem (i - 1 + len) len.

Definition clamp (n lo hi : Z) : Z := Z.min hi (Z.max lo n).

End WithDocument.
End Utils.

(** ** a11y.js *)

Module A11y.
Section WithDocument.
Variable doc : document.

(** [el instanceof HTMLElement ? el : null] *)
Definition html_element_or_null (active : option elem) : option elem :=
  match active with
  | Some el => if is_html doc el then Some el else None
  | None => None
  end.

Definition rememberFocus : action :=
  update (fun s =>
            with_lastFocused (html_element_or_null (activeElement s)) s).

Definition restoreFocus : action := fun s =>
  match lastFocused s with
  | Some el => Utils.focus doc el s
  | None => skip s
  end.

(** [announce(message, politeness)]: the proxy to the shared live
    region.  (The legacy block left at the end of a11y.js, which
    declares [announce] a second time over an [ensureLiveRegion] that
    no file defines, is not part of the model.) *)
Definition announce (message : string) (p : politeness) : action :=
  Utils.liveRegion message p.

End WithDocument.
End A11y.

(** ** gallery.js *)

Module Gallery.

Definition item_selector : selector := [ByAttr "data-gallery-item"].

(** [hydrateItems]: [if (!refs.grid) return; state.items = qsa(...)] *)
Definition hydrateItems (doc : document) (items : list node) : list node :=
  match grid doc with
  | None => items
  | Some g => Utils.qsa g item_selector
  end.

Fixpoint indexOf_from (i : Z) (l : list node) (card : node) : Z :=
  match l with
  | [] => -1
  | x :: l' => if same_node x card then i else indexOf_from (i + 1) l' card
  end.

(** [items.indexOf(card)] *)
Definition indexOf (l : list node) (card : node) : Z := indexOf_from 0 l card.

(** The handler bodies of [initLightboxBindings]: the [detail.index] of
    the 'lightbox:open' event dispatched for [card], or [None] when no
    event is dispatched. *)
Definition open_request (items : list node) (card : node) : option Z :=
  let index := indexOf items card in
  if 0 <=? index then Some index else None.

End Gallery.

(** ** lightbox.js *)

Module Lightbox.
Section Controller.
Variable rf : refs.
Variable doc : document.

Definition item_selector : selector :=
  [ByAttr "data-gallery-item"; ByClass "gallery__item"].

(** [!arr.length] *)
Definition is_empty {A} (arr : list A) : bool :=
  match arr with [] => true | _ => false end.

Definition hydrateItems : action :=
  update (with_items
            match grid doc with
            | Some g => Utils.qsa g item_selector
            | None => []
            end).

Definition setAriaHiddenForBackground (hidden : bool) : action :=
  match main doc with
  | Some m => setAttribute m "aria-hidden" (if hidden then "true" else "false")
  | None => skip
  end.

(** [src] of [updateUI] *)
Definition image_source (card : node) : option string :=
  let imgEl := querySelector card [ByTag "img"] in
  Js.or (getAttribute card "data-full")
    (Js.or (imgEl ≫= fun i => getAttribute i "data-full")
       (Js.or (imgEl ≫= fun i => getAttribute i "src")
          (querySelector card [ByTag "a"] ≫= fun a => getAttribute a "href"))).

(** [alt] of [updateUI] *)
Definition image_alt (card : node) : string :=
  let imgEl := querySelector card [ByTag "img"] in
  default "" (Js.or (imgEl ≫= fun i => getAttribute i "alt") (Some "")).

(** [caption] of [updateUI] *)
Definition caption_of (card : node) : string :=
  default ""
    (Js.or (getAttribute card "data-caption")
       (Js.or (textContent <$> querySelector card [ByClass "card__caption"])
          (Some ""))).

(** [`${index + 1} / ${length}`] *)
Definition counter_text (index length : Z) : string :=
  Js.num (index + 1) +:+ " / " +:+ Js.num length.

(** [`Image ${index + 1} of ${length}${caption ? `, ${caption}` : ''}`] *)
Definition announcement (index length : Z) (cap : string) : string :=
  "Image " +:+ Js.num (index + 1) +:+ " of " +:+ Js.num length
  +:+ (if Js.truthy (Some cap) then ", " +:+ cap else "").

Definition updateUI : action := fun s =>
  match Js.at_index (items s) (index s) with
  | None => skip s
  | Some card =>
      let src := image_source card in
      let alt := image_alt card in
      let cap := caption_of card in
      (match img rf with
       | Some i =>
           when (Js.truthy src)
             (setAttribute i "src" (default "" src) >>> setAttribute i "alt" alt)
       | None => skip
       end
       >>> match caption rf with
           | Some c => setTextContent c cap
           | None => skip
           end
       >>> match counter rf with
           | Some c =>
               setTextContent c (counter_text (index s) (Js.len (items s)))
           | None => skip
           end
       >>> A11y.announce
             (announcement (index s) (Js.len (items s)) cap) Polite) s
  end.

(** [preloadSrc] of [preloadNeighbors], for a card that may be
    [undefined]. *)
Definition preload_source (card : option node) : option string :=
  Js.or (card ≫= fun c => getAttribute c "data-full")
    (Js.or (card ≫= fun c => querySelector c [ByTag "img"]
                 ≫= fun i => getAttribute i "data-full")
       (card ≫= fun c => querySelector c [ByTag "a"]
             ≫= fun a => getAttribute a "href")).

Definition preload (card : option node) : action :=
  let preloadSrc := preload_source card in
  when (Js.truthy preloadSrc) (emit (Preload (default "" preloadSrc))).

Definition preloadNeighbors : action := fun s =>
  if is_empty (items s) then skip s
  else
    let next := Js.at_index (items s)
                  (Utils.nextIndex (index s) (Js.len (items s))) in
    let prev := Js.at_index (items s)
                  (Utils.prevIndex (index s) (Js.len (items s))) in
    (preload next >>> preload prev) s.

(** [state.releaseFocusFn = trapFocus(container, initial)] *)
Definition install_trap (container : elem) (initial : option elem) : action :=
  fun s =>
    let '(rel, s') := Utils.trapFocus container initial s in
    (with_releaseFocusFn (Some rel) s', []).

Definition open (idx : Z) : action := fun s =>
  match root rf with
  | None => skip s
  | Some r =>
      ((fun s0 => when (is_empty (items s0)) hydrateItems s0)
       >>> fun s1 =>
             if is_empty (items s1) then skip s1
             else
               (A11y.rememberFocus doc
                >>> update (with_index idx)
                >>> removeAttribute r "hidden"
                >>> setAttribute r "data-open" "true"
                >>> setAttribute r "aria-modal" "true"
                >>> match dialog rf with
                    | Some d => setAttribute d "role" "dialog"
                    | None => skip
                    end
                >>> updateUI
                >>> preloadNeighbors
                >>> setAriaHiddenForBackground true
                >>> install_trap (default r (dialog rf))
                      (Js.or_elem (closeBtn rf) (dialog rf))
                >>> A11y.announce "Image viewer opened" Polite) s1) s
  end.

Definition close : action :=
  match root rf with
  | None => skip
  | Some r =>
      setAttribute r "hidden" ""
      >>> removeAttribute r "data-open"
      >>> removeAttribute r "aria-modal"
      >>> setAriaHiddenForBackground false
      >>> (fun s => match releaseFocusFn s with
                    | Some rel => Utils.call_release doc rel s
                    | None => skip s
                    end)
      >>> update (with_releaseFocusFn None)
      >>> A11y.restoreFocus doc
      >>> A11y.announce "Image viewer closed" Polite
  end.

Definition next : action := fun s =>
  if is_empty (items s) then skip s
  else
    (update (with_index (Utils.nextIndex (index s) (Js.len (items s))))
     >>> updateUI >>> preloadNeighbors) s.

Definition prev : action := fun s =>
  if is_empty (items s) then skip s
  else
    (update (with_index (Utils.prevIndex (index s) (Js.len (items s))))
     >>> updateUI >>> preloadNeighbors) s.

(** [onKeydown(e)], by [e.key] *)
Definition onKeydown (key : string) : action := fun s =>
  match root rf with
  | Some r =>
      if hasAttribute r "data-open" s then
        if String.eqb key "Escape" then close s
        else if String.eqb key "ArrowRight" then next s
        else if String.eqb key "ArrowLeft" then prev s
        else skip s
      else skip s
  | None => skip s
  end.

(** [onBackdropClick(e)], by [e.target] *)
Definition onBackdropClick (target : elem) : action :=
  if bool_decide (Some target = root rf)
     || bool_decide (Some target = backdrop rf)
  then close else skip.

(** The 'lightbox:open' listener: [open(detail.index || 0)] *)
Definition onOpenRequest (detail_index : option Z) : action :=
  open (match detail_index with
        | Some i => if i =? 0 then 0 else i
        | None => 0
        end).

End Controller.
End Lightbox.

(** ** A sample page

    Three gallery cards in the documented markup patterns, the lightbox
    markup of the component guide, and a second grid that mixes the two
    card markers. *)

Module Sample.

Local Open Scope nat_scope.

Definition attrs_of (l : list (string * string)) : gmap string string :=
  list_to_map l.

(** Pattern A: [data-full] and [data-caption] on the card. *)
Definition cat : node :=
  Node 10 "div"
    (attrs_of [("data-gallery-item", ""); ("data-full", "/full/cat.jpg");
               ("data-caption", "Cat on a bench")])
    ["gallery__item"] ""
    [Node 11 "img"
       (attrs_of [("src", "/thumb/cat.jpg");
                  ("data-full", "/full/cat-nested.jpg");
                  ("alt", "Cat on a bench")]) [] "" []].

(** A thumbnail and a link to the full image, no caption. *)
Definition dog : node :=
  Node 20 "div" (attrs_of [("data-gallery-item", "")]) [] ""
    [Node 21 "img" (attrs_of [("src", "/thumb/dog.jpg"); ("alt", "Dog")])
       [] "" [];
     Node 22 "a" (attrs_of [("href", "/full/dog.jpg")]) [] "" []].

(** Pattern B: nested [img[data-full]] and a [.card__caption]. *)
Definition bird : node :=
  Node 30 "div" (attrs_of [("data-gallery-item", "")]) ["gallery__item"]
    "Bird in flight"
    [Node 31 "img"
       (attrs_of [("src", "/thumb/bird.jpg"); ("data-full", "/full/bird.jpg")])
       [] "" [];
     Node 32 "div" ∅ ["card__caption"] "Bird in flight" []].

(** A card marked by the class only. *)
Definition fish : node :=
  Node 40 "div" (attrs_of [("data-full", "/full/fish.jpg")])
    ["gallery__item"] ""
    [Node 41 "a" (attrs_of [("href", "/full/fish.jpg")]) [] "" []].

Definition gallery_grid : node :=
  Node 1 "div" (attrs_of [("data-gallery-grid", "")]) [] "" [cat; dog; bird].

Definition mixed_grid : node :=
  Node 1 "div" (attrs_of [("data-gallery-grid", "")]) [] "" [fish; dog].

Definition empty_grid : node :=
  Node 1 "div" (attrs_of [("data-gallery-grid", "")]) [] "" [].

Definition the_refs : refs :=
  mkRefs (Some 100) (Some 101) (Some 102) (Some 103) (Some 104)
         (Some 105) (Some 106) (Some 107) (Some 108).

Definition page_with (g : option node) : document :=
  mkDocument g (Some 2) (fun _ => true) (fun _ => true)
    (fun c => if Nat.eqb c 101 then [102; 106; 107] else []).

Definition page : document := page_with (Some gallery_grid).

(** The page after [initLightbox], before anything was opened: the root
    is hidden, the link of the second card has the focus. *)
Definition initial (items : list node) : state :=
  mkState items 0%Z None None {[ (100, "hidden") := "" ]} ∅
          (Some 22) [OnKeydown] 0 [].

Definition three_items : list node := [cat; dog; bird].

End Sample.

(** ** Predicates and closed forms used in the statements *)

(** The index addresses an item whenever there are items. *)
Definition index_in_range (s : state) : Prop :=
  items s <> [] -> 0 <= index s < Js.len (items s).

(** The Closed and Open states of the viewer, read off the root's
    markers. *)
Definition is_closed (r : elem) (s : state) : Prop :=
  is_Some (attr s !! (r, "hidden")) /\ attr s !! (r, "data-open") = None
  /\ attr s !! (r, "aria-modal") = None.

Definition is_open (r : elem) (s : state) : Prop :=
  attr s !! (r, "hidden") = None /\ attr s !! (r, "data-open") = Some "true"
  /\ attr s !! (r, "aria-modal") = Some "true".

(** The snapshot [open] works on: hydrated first when it was empty. *)
Definition hydrated (doc : document) (s : state) : state :=
  if Lightbox.is_empty (items s) then run (Lightbox.hydrateItems doc) s else s.

(** The focused element after [el.focus()] on an optional element. *)
Definition focus_moved (doc : document) (target cur : option elem)
  : option elem :=
  match target with
  | Some el => if can_focus doc el then Some el else cur
  | None => cur
  end.

(** The attribute store [close()] leaves for root [r]. *)
Definition closed_attrs (doc : document) (r : elem)
  (a : gmap (elem * string) string) : gmap (elem * string) string :=
  let a1 := delete (r, "aria-modal")
              (delete (r, "data-open") (<[(r, "hidden") := ""]> a)) in
  match main doc with
  | Some m => <[(m, "aria-hidden") := "false"]> a1
  | None => a1
  end.

(** The [keydown] listeners [close()] leaves. *)
Definition closed_keydown (s : state) : list listener :=
  match releaseFocusFn s with
  | Some rel => Utils.removeEventListener (rel_closure rel) (keydown s)
  | None => keydown s
  end.

(** The focused element [close()] leaves: the trap's restore first, the
    controller's own restore last. *)
Definition closed_focus (doc : document) (s : state) : option elem :=
  focus_moved doc (lastFocused s)
    (focus_moved doc (releaseFocusFn s ≫= rel_prevActive) (activeElement s)).

(** ** utils.js: the focus trap's key handler *)

Module FocusTrap.
Section WithDocument.
Variable doc : document.

(** [container.contains(el)] *)
Variable contains : elem -> elem -> bool.

(** The fields of the keyboard event the handler reads. *)
Record key_event := mkKeyEvent {
  key : string;
  shiftKey : bool
}.

(** [active === el] *)
Definition is_active (el : elem) (s : state) : bool :=
  bool_decide (activeElement s = Some el).

(** [!container.contains(active)]; [contains(null)] is [false]. *)
Definition escaped (container : elem) (s : state) : bool :=
  match activeElement s with
  | Some a => negb (contains container a)
  | None => true
  end.

(** [handleKeydown(e)] of [trapFocus(container, _)]: the state it
    leaves and whether it called [e.preventDefault()]. *)
Definition handleKeydown (container : elem) (e : key_event) (s : state)
  : state * bool :=
  if negb (String.eqb (key e) "Tab") then (s, false)
  else
    match tabbables doc container with
    | [] => (s, false)
    | first :: rest =>
        let last := List.last rest first in
        if shiftKey e then
          if is_active first s || escaped container s
          then (run (Utils.focus doc last) s, true)
          else (s, false)
        else
          if is_active last s || escaped container s
          then (run (Utils.focus doc first) s, true)
          else (s, false)
    end.

End WithDocument.
End FocusTrap.

(** ** utils.js: pressed state and the live region *)

Module Widgets.

(** [String(b)] *)
Definition bool_text (b : bool) : string := if b then "true" else "false".

(** [el.toggleAttribute(k, force)] *)
Definition toggleAttribute (el : elem) (k : string) (force : bool) : action :=
  fun s =>
    if force then
      if hasAttribute el k s then skip s else setAttribute el k "" s
    else removeAttribute el k s.

(** [togglePressed(el, state)]: [pressed] is [None] for a missing (or
    [null]) second argument; the result is the returned [next]. *)
Definition togglePressed (el : elem) (pressed : option bool) (s : state)
  : bool * state :=
  let next :=
    match pressed with
    | Some b => b
    | None =>
        negb (bool_decide (attr s !! (el, "aria-pressed") = Some "true"))
    end in
  (next,
   run (setAttribute el "aria-pressed" (bool_text next)
        >>> toggleAttribute el "data-active" next) s).

(** The shared live region: [_liveNode] with its [aria-live] attribute
    and text, and the messages of the [setTimeout(..., 10)] callbacks
    that have not run yet, oldest first. *)
Record live_region := mkLive {
  liveNode : option (politeness * string);
  pending : list string
}.

(** [p === q] on the two politeness strings. *)
Definition same_politeness (p q : politeness) : bool :=
  match p, q with
  | Polite, Polite | Assertive, Assertive => true
  | _, _ => false
  end.

(** The body of [liveRegion(message, politeness)]. *)
Definition liveRegion (message : string) (p : politeness) (l : live_region)
  : live_region :=
  let node := match liveNode l with
              | Some n => n
              | None => (Polite, "")
              end in
  let aria_live := if negb (same_politeness p (fst node)) then p
                   else fst node in
  mkLive (Some (aria_live, "")) (pending l ++ [message]).

(** The oldest timer callback runs: [_liveNode.textContent = message]. *)
Definition timer_fires (l : live_region) : live_region :=
  match pending l with
  | [] => l
  | m :: rest =>
      mkLive (match liveNode l with
              | Some (a, _) => Some (a, m)
              | None => None
              end) rest
  end.

(** What the live region does with the effects an operation emitted. *)
Definition handle_effect (e : effect) (l : live_region) : live_region :=
  match e with
  | Announce p m => liveRegion m p l
  | Preload _ => l
  end.

Definition handle_effects (es : list effect) (l : live_region) : live_region :=
  fold_left (fun acc e => handle_effect e acc) es l.

Definition all_timers_fire (l : live_region) : live_region :=
  Nat.iter (length (pending l)) timer_fires l.

End Widgets.

(** ** utils.js: debounce and throttle

    A wrapped function is a small machine: the closure variables of the
    wrapper, and the callbacks it handed to [setTimeout] that have
    neither run nor been cleared.  The environment drives it with calls
    of the wrapper and with timers that come due; each step yields the
    argument lists with which [fn] was invoked.  Timer handles are
    positive numbers, so [!t] holds exactly when [t] is [undefined]. *)

Module Timing.
Section Wrapped.
Context {A : Type}.

(** [clearTimeout(t)] on the pending callbacks. *)
Definition clearTimeout {B} (t : option nat) (l : list (nat * B))
  : list (nat * B) :=
  match t with
  | Some i => List.filter (fun p => negb (Nat.eqb (fst p) i)) l
  | None => l
  end.

Definition find_timer {B} (i : nat) (l : list (nat * B)) : option B :=
  snd <$> List.find (fun p => Nat.eqb (fst p) i) l.

(** *** [debounce(fn, ms, immediate)] *)

Record debounced := mkDebounced {
  t : option nat;
  d_timers : list (nat * A);
  d_fresh : nat
}.

(** A call of the wrapper with [args]. *)
Definition d_call (immediate : bool) (args : A) (d : debounced)
  : debounced * list A :=
  let callNow := immediate && negb (bool_decide (is_Some (t d))) in
  let cleared := clearTimeout (t d) (d_timers d) in
  let id := d_fresh d in
  (mkDebounced (Some id) (cleared ++ [(id, args)]) (S id),
   if callNow then [args] else []).

(** The timer with handle [i] comes due. *)
Definition d_fire (immediate : bool) (i : nat) (d : debounced)
  : debounced * list A :=
  match find_timer i (d_timers d) with
  | None => (d, [])
  | Some args =>
      (mkDebounced None (clearTimeout (Some i) (d_timers d)) (d_fresh d),
       if immediate then [] else [args])
  end.

(** Several calls in a row, with the invocations they caused. *)
Fixpoint d_calls (immediate : bool) (l : list A) (d : debounced)
  : debounced * list A :=
  match l with
  | [] => (d, [])
  | a :: l' =>
      let '(d1, o1) := d_call immediate a d in
      let '(d2, o2) := d_calls immediate l' d1 in
      (d2, o1 ++ o2)
  end.

(** *** [throttle(fn, ms)] *)

Record throttled := mkThrottled {
  last : Z;
  timer : option nat;
  t_timers : list (nat * (Z * A));
  t_fresh : nat
}.

(** A call of the wrapper with [args] when [Date.now()] is [now]; a
    scheduled callback is kept with its delay. *)
Definition t_call (ms now : Z) (args : A) (th : throttled)
  : throttled * list A :=
  let remaining := ms - (now - last th) in
  if remaining <=? 0 then
    (mkThrottled now (timer th) (t_timers th) (t_fresh th), [args])
  else
    match timer th with
    | None =>
        let id := t_fresh th in
        (mkThrottled (last th) (Some id)
           (t_timers th ++ [(id, (remaining, args))]) (S id), [])
    | Some _ => (th, [])
    end.

(** The timer with handle [i] comes due when [Date.now()] is [now]. *)
Definition t_fire (now : Z) (i : nat) (th : throttled)
  : throttled * list A :=
  match find_timer i (t_timers th) with
  | None => (th, [])
  | Some (_, args) =>
      (mkThrottled now None (clearTimeout (Some i) (t_timers th))
         (t_fresh th), [args])
  end.

(** Several calls in a row, each with its time. *)
Fixpoint t_calls (ms : Z) (l : list (Z * A)) (th : throttled)
  : throttled * list A :=
  match l with
  | [] => (th, [])
  | (now, a) :: l' =>
      let '(th1, o1) := t_call ms now a th in
      let '(th2, o2) := t_calls ms l' th1 in
      (th2, o1 ++ o2)
  end.

End Wrapped.
End Timing.

(** ** a11y.js: the focus-visible helper *)

Module FocusVisible.

(** [hadKeyboardEvent] and whether the root carries the
    [js-focus-visible] class. *)
Record fv_state := mkFv {
  hadKeyboardEvent : bool;
  has_helper_class : bool
}.

(** The three window events [initFocusVisible] listens to; a [keydown]
    carries its modifier flags. *)
Inductive fv_event :=
| Keydown (metaKey altKey ctrlKey : bool)
| Mousedown
| Focus.

Definition handle (e : fv_event) (s : fv_state) : fv_state :=
  match e with
  | Keydown metaKey altKey ctrlKey =>
      if metaKey || altKey || ctrlKey then s else mkFv true true
  | Mousedown => mkFv false false
  | Focus =>
      if negb (hadKeyboardEvent s) then mkFv (hadKeyboardEvent s) false
      else s
  end.

Definition handle_all (es : list fv_event) (s : fv_state) : fv_state :=
  fold_left (fun acc e => handle e acc) es s.

End FocusVisible.

(** ** gallery.js: filters *)

Module GalleryFilters.
Section Filters.

(** [String.prototype.toLowerCase] *)
Variable toLowerCase : string -> string.

(** The character class of the tag separator, as the regular
    expression literal [/[,\\s]+/] reads: a comma, a backslash or the
    letter s. *)
Definition is_separator (c : Ascii.ascii) : bool :=
  Ascii.eqb c ","%char || Ascii.eqb c "\"%char || Ascii.eqb c "s"%char.

(** [str.split(/[...]+/)]: the pieces between maximal runs of
    separators; [in_run] tells that the previous character was a
    separator, [acc] is the piece being read. *)
Fixpoint split_go (sep : Ascii.ascii -> bool) (in_run : bool) (acc : string)
  (str : string) : list string :=
  match str with
  | EmptyString => [acc]
  | String c rest =>
      if sep c then
        if in_run then split_go sep true acc rest
        else acc :: split_go sep true "" rest
      else split_go sep false (acc +:+ String c "") rest
  end.

Definition split (sep : Ascii.ascii -> bool) (str : string) : list string :=
  split_go sep false "" str.

(** [Boolean(s)] for a string *)
Definition nonempty (s : string) : bool := negb (String.eqb s "").

(** The tags of an item:
    [tagsAttr.split(/[,\\s]+/).filter(Boolean).map(t => t.toLowerCase())] *)
Definition tags_of (item : node) : list string :=
  let tagsAttr :=
    default "" (Js.or (getAttribute item "data-tags") (Some "")) in
  List.map toLowerCase (List.filter nonempty (split is_separator tagsAttr)).

Definition matchFilter (item : node) (filter : string) : bool :=
  if String.eqb filter "all" then true
  else existsb (String.eqb (toLowerCase filter)) (tags_of item).

(** The element bundle of gallery.js. *)
Record gallery_refs := mkGalleryRefs {
  filters : option node;
  countNode : option elem
}.

Variable grefs : gallery_refs.

(** [arr.forEach(f)] for an [f] that acts on the page. *)
Fixpoint forEach {B} (f : B -> action) (arr : list B) : action :=
  match arr with
  | [] => skip
  | x :: rest => f x >>> forEach f rest
  end.

(** The body of the loop over the filter buttons. *)
Definition sync_button (value : string) (btn : node) : action :=
  let v := default "all" (Js.or (getAttribute btn "data-filter") (Some "all")) in
  let isActive := String.eqb v value in
  setAttribute (nid btn) "aria-pressed" (Widgets.bool_text isActive)
  >>> Widgets.toggleAttribute (nid btn) "data-active" isActive.

(** The body of the loop over the items. *)
Definition sync_item (value : string) (item : node) : action :=
  Widgets.toggleAttribute (nid item) "data-hidden"
    (negb (matchFilter item value)).

(** [visibleCount] after the loop over the items. *)
Definition visibleCount (value : string) (items : list node) : Z :=
  Js.len (List.filter (fun item => matchFilter item value) items).

(** [`${visibleCount} items ${value === 'all' ? '' : `matching ${value}`} shown`] *)
Definition count_message (count : Z) (value : string) : string :=
  Js.num count +:+ " items "
  +:+ (if String.eqb value "all" then "" else "matching " +:+ value)
  +:+ " shown".

(** [applyFilter(value, announce)] over the gallery's items; the new
    [state.activeFilter] is [value]. *)
Definition applyFilter (items : list node) (value : string) (announce : bool)
  : action :=
  match filters grefs with
  | Some f => forEach (sync_button value) (Utils.qsa f [ByAttr "data-filter"])
  | None => skip
  end
  >>> forEach (sync_item value) items
  >>> match countNode grefs with
      | Some c => setTextContent c (Js.num (visibleCount value items))
      | None => skip
      end
  >>> when announce
        (Utils.liveRegion (count_message (visibleCount value items) value)
           Polite).

End Filters.
End GalleryFilters.

(** ** lightbox.js: the listeners of [initLightbox] at work

    [initLightbox] registers, when the root was found: a click listener
    on the close control ([close]), on the previous control ([prev]) and
    on the next control ([next]), the [keydown] listener [onKeydown] on
    the document, and the click listener [onBackdropClick] on the root.
    None of them stops propagation.  A click is given by its
    propagation path, the target first and then its ancestors outwards;
    a key press reaches the document's [keydown] listeners in the order
    they were registered, skipping one that an earlier listener
    removed. *)

Module Events.
Section WithPage.
Variable rf : refs.
Variable doc : document.

(** [container.contains(el)], for the focus trap's handler. *)
Variable contains : elem -> elem -> bool.

(** [refs.x === el] *)
Definition is_ref (x : option elem) (el : elem) : bool :=
  bool_decide (x = Some el).

(** The click listeners registered on [el], in registration order, for
    a click whose target is [target]. *)
Definition click_listeners (target el : elem) : action :=
  match root rf with
  | None => skip
  | Some _ =>
      when (is_ref (closeBtn rf) el) (Lightbox.close rf doc)
      >>> when (is_ref (prevBtn rf) el) (Lightbox.prev rf)
      >>> when (is_ref (nextBtn rf) el) (Lightbox.next rf)
      >>> when (is_ref (root rf) el) (Lightbox.onBackdropClick rf doc target)
  end.

(** The click bubbles along the rest of its path. *)
Fixpoint bubble (target : elem) (path : list elem) : action :=
  match path with
  | [] => skip
  | el :: outer => click_listeners target el >>> bubble target outer
  end.

(** A click with propagation path [path]. *)
Definition click (path : list elem) : action :=
  match path with
  | [] => skip
  | target :: _ => bubble target path
  end.





End WithPage.
End Events.

(** For a click on [target], a listener registered on [el] calls
    [close()]: [el] is the close control, or [el] is the root [r] and
    the target is the root or the backdrop. *)
Definition click_calls_close (rf : refs) (r target el : elem) : Prop :=
  closeBtn rf = Some el
  \/ (el = r /\ (target = r \/ Some target = backdrop rf)).

(** * Properties *)

(** ** Sequencing *)

Lemma run_andThen (a b : action) (s : state) :
  run (a >>> b) s = run b (run a s).
Proof.
  unfold run, andThen. destruct (a s) as [s1 o1]. cbn.
  destruct (b s1) as [s2 o2]. reflexivity.
Qed.

(** ** Circular index arithmetic *)

Lemma nextIndex_mod (i n : Z) :
  0 <= i -> 0 < n -> Utils.nextIndex i n = (i + 1) mod n.
Proof. intros Hi Hn. unfold Utils.nextIndex. apply Z.rem_mod_nonneg; lia. Qed.

Lemma prevIndex_mod (i n : Z) :
  0 <= i -> 0 < n -> Utils.prevIndex i n = (i - 1) mod n.
Proof.
  intros Hi Hn. unfold Utils.prevIndex.
  rewrite Z.rem_mod_nonneg by lia.
  replace (i - 1 + n) with (i - 1 + 1 * n) by lia.
  apply Z.mod_add. lia.
Qed.

(** ** What rendering and preloading leave alone *)

Lemma preloadNeighbors_run (s : state) : run Lightbox.preloadNeighbors s = s.
Proof.
  unfold run, Lightbox.preloadNeighbors, Lightbox.preload, when, andThen,
    emit, skip.
  repeat case_match; simplify_eq; reflexivity.
Qed.

Lemma updateUI_frame (rf : refs) (s : state) :
  let s' := run (Lightbox.updateUI rf) s in
  items s' = items s /\ index s' = index s
  /\ releaseFocusFn s' = releaseFocusFn s /\ lastFocused s' = lastFocused s
  /\ activeElement s' = activeElement s /\ keydown s' = keydown s
  /\ closures s' = closures s /\ microtasks s' = microtasks s.
Proof.
  unfold run, Lightbox.updateUI, A11y.announce, Utils.liveRegion, when,
    andThen, setAttribute, setTextContent, update, emit, skip.
  repeat case_match; simplify_eq; cbn; repeat split; reflexivity.
Qed.


Lemma next_run (rf : refs) (s : state) :
  items s <> [] ->
  run (Lightbox.next rf) s
  = run (Lightbox.updateUI rf)
      (with_index (Utils.nextIndex (index s) (Js.len (items s))) s).
Proof.
  intros Hne. unfold run at 1, Lightbox.next.
  destruct (items s) as [|c l] eqn:E; [congruence|]. cbn [Lightbox.is_empty].
  rewrite <- E.
  change (fst (?a s)) with (run a s).
  rewrite !run_andThen, preloadNeighbors_run. reflexivity.
Qed.

Lemma prev_run (rf : refs) (s : state) :
  items s <> [] ->
  run (Lightbox.prev rf) s
  = run (Lightbox.updateUI rf)
      (with_index (Utils.prevIndex (index s) (Js.len (items s))) s).
Proof.
  intros Hne. unfold run at 1, Lightbox.prev.
  destruct (items s) as [|c l] eqn:E; [congruence|]. cbn [Lightbox.is_empty].
  rewrite <- E.
  change (fst (?a s)) with (run a s).
  rewrite !run_andThen, preloadNeighbors_run. reflexivity.
Qed.

Lemma next_index (rf : refs) (s : state) :
  items s <> [] ->
  index (run (Lightbox.next rf) s)
  = Utils.nextIndex (index s) (Js.len (items s))
  /\ items (run (Lightbox.next rf) s) = items s.
Proof.
  intros Hne. rewrite next_run by assumption.
  destruct (updateUI_frame rf
              (with_index (Utils.nextIndex (index s) (Js.len (items s))) s))
    as (Hi & Hx & _).
  cbn zeta in Hi, Hx. rewrite Hi, Hx. split; reflexivity.
Qed.

Lemma prev_index (rf : refs) (s : state) :
  items s <> [] ->
  index (run (Lightbox.prev rf) s)
  = Utils.prevIndex (index s) (Js.len (items s))
  /\ items (run (Lightbox.prev rf) s) = items s.
Proof.
  intros Hne. rewrite prev_run by assumption.
  destruct (updateUI_frame rf
              (with_index (Utils.prevIndex (index s) (Js.len (items s))) s))
    as (Hi & Hx & _).
  cbn zeta in Hi, Hx. rewrite Hi, Hx. split; reflexivity.
Qed.

Lemma len_pos {A} (l : list A) : l <> [] -> 0 < Js.len l.
Proof. destruct l; [congruence|]. intros _. unfold Js.len. cbn. lia. Qed.

(** [k] presses of "next" from an in-range index add [k] modulo the
    item count. *)
Lemma iter_next (rf : refs) (k : nat) (s : state) :
  items s <> [] -> 0 <= index s < Js.len (items s) ->
  items (Nat.iter k (run (Lightbox.next rf)) s) = items s
  /\ index (Nat.iter k (run (Lightbox.next rf)) s)
     = (index s + Z.of_nat k) mod Js.len (items s).
Proof.
  intros Hne Hi. pose proof (len_pos _ Hne) as Hn.
  induction k as [|k [IHit IHix]].
  - cbn. split; [reflexivity|]. rewrite Z.add_0_r, Z.mod_small; lia.
  - rewrite Nat.iter_succ.
    assert (Hne' : items (Nat.iter k (run (Lightbox.next rf)) s) <> [])
      by (rewrite IHit; assumption).
    destruct (next_index rf _ Hne') as [Hx Hit]. rewrite Hit, Hx, IHit, IHix.
    split; [reflexivity|].
    rewrite nextIndex_mod; [| apply Z.mod_pos_bound; lia | lia].
    rewrite Zplus_mod_idemp_l. f_equal. lia.
Qed.

Lemma iter_prev (rf : refs) (k : nat) (s : state) :
  items s <> [] -> 0 <= index s < Js.len (items s) ->
  items (Nat.iter k (run (Lightbox.prev rf)) s) = items s
  /\ index (Nat.iter k (run (Lightbox.prev rf)) s)
     = (index s - Z.of_nat k) mod Js.len (items s).
Proof.
  intros Hne Hi. pose proof (len_pos _ Hne) as Hn.
  induction k as [|k [IHit IHix]].
  - cbn. split; [reflexivity|]. rewrite Z.sub_0_r, Z.mod_small; lia.
  - rewrite Nat.iter_succ.
    assert (Hne' : items (Nat.iter k (run (Lightbox.prev rf)) s) <> [])
      by (rewrite IHit; assumption).
    destruct (prev_index rf _ Hne') as [Hx Hit]. rewrite Hit, Hx, IHit, IHix.
    split; [reflexivity|].
    rewrite prevIndex_mod; [| apply Z.mod_pos_bound; lia | lia].
    rewrite Zminus_mod_idemp_l. f_equal. lia.
Qed.

(** C2. With [n > 0] items and the index [i] in range, [n] calls of
    [next()] bring the index back to [i], and so do [n] calls of
    [prev()]; navigation wraps at both ends: [next()] at the last item
    goes to the first and [prev()] at the first goes to the last. *)
Theorem wrap_invariant (rf : refs) (s : state) :
  items s <> [] -> 0 <= index s < Js.len (items s) ->
  index (Nat.iter (length (items s)) (run (Lightbox.next rf)) s) = index s
  /\ index (Nat.iter (length (items s)) (run (Lightbox.prev rf)) s) = index s
  /\ (index s = Js.len (items s) - 1 -> index (run (Lightbox.next rf) s) = 0)
  /\ (index s = 0 ->
      index (run (Lightbox.prev rf) s) = Js.len (items s) - 1).
Proof.
  intros Hne Hi. pose proof (len_pos _ Hne) as Hn.
  destruct (iter_next rf (length (items s)) s Hne Hi) as [_ Hnx].
  destruct (iter_prev rf (length (items s)) s Hne Hi) as [_ Hpv].
  fold (Js.len (items s)) in Hnx, Hpv.
  repeat split.
  - rewrite Hnx.
    replace (index s + Js.len (items s))
      with (index s + 1 * Js.len (items s)) by lia.
    rewrite Z.mod_add by lia. apply Z.mod_small; lia.
  - rewrite Hpv.
    replace (index s - Js.len (items s))
      with (index s + (-1) * Js.len (items s)) by lia.
    rewrite Z.mod_add by lia. apply Z.mod_small; lia.
  - intros Hlast. destruct (next_index rf s Hne) as [Hx _]. rewrite Hx, Hlast.
    rewrite nextIndex_mod by lia.
    replace (Js.len (items s) - 1 + 1) with (Js.len (items s)) by lia.
    apply Z.mod_same; lia.
  - intros Hfirst. destruct (prev_index rf s Hne) as [Hx _]. rewrite Hx, Hfirst.
    rewrite prevIndex_mod by lia.
    replace (0 - 1) with (Js.len (items s) - 1 + (-1) * Js.len (items s)) by lia.
    rewrite Z.mod_add by lia. apply Z.mod_small; lia.
Qed.

Lemma wrap_invariant_witness :
  let s := with_index 1 (Sample.initial Sample.three_items) in
  index (Nat.iter 3 (run (Lightbox.next Sample.the_refs)) s) = 1
  /\ index (Nat.iter 3 (run (Lightbox.prev Sample.the_refs)) s) = 1.
Proof.
  pose proof (wrap_invariant Sample.the_refs
                (with_index 1 (Sample.initial Sample.three_items))) as H.
  cbn zeta. destruct H as (Hn & Hp & _).
  - discriminate.
  - vm_compute. split; [intro; discriminate | reflexivity].
  - split; [exact Hn | exact Hp].
Defined.

(** ** Closed forms of [close] and [open] *)

Lemma close_no_root (rf : refs) (doc : document) (s : state) :
  root rf = None -> Lightbox.close rf doc s = (s, []).
Proof. intros H. unfold Lightbox.close. rewrite H. reflexivity. Qed.

Lemma close_closed_form (rf : refs) (doc : document) (r : elem) (s : state) :
  root rf = Some r ->
  Lightbox.close rf doc s
  = (mkState (items s) (index s) None (lastFocused s)
       (closed_attrs doc r (attr s)) (text s) (closed_focus doc s)
       (closed_keydown s) (closures s) (microtasks s),
     [Announce Polite "Image viewer closed"]).
Proof.
  intros H. unfold Lightbox.close. rewrite H.
  unfold closed_attrs, closed_focus, closed_keydown, focus_moved,
    Lightbox.setAriaHiddenForBackground, A11y.restoreFocus, A11y.announce,
    Utils.liveRegion, Utils.call_release, Utils.focus, andThen, setAttribute,
    removeAttribute, update, emit, skip.
  destruct s as [it ix rel lf a t ae kd cl mt]; cbn.
  destruct (main doc) as [m|]; destruct rel as [[h [p|]]|]; cbn;
    destruct lf as [l|]; cbn;
    repeat (case_match; cbn in *; simplify_eq);
    first [reflexivity | congruence].
Qed.

Lemma focus_moved_idem (doc : document) (t cur : option elem) :
  focus_moved doc t (focus_moved doc t cur) = focus_moved doc t cur.
Proof. unfold focus_moved. repeat case_match; congruence. Qed.

Lemma closed_attrs_lookup (doc : document) (r : elem)
  (a : gmap (elem * string) string) (k : elem * string) :
  closed_attrs doc r a !! k
  = if decide (Some k.1 = main doc /\ k.2 = "aria-hidden") then Some "false"
    else if decide (k = (r, "aria-modal")) then None
    else if decide (k = (r, "data-open")) then None
    else if decide (k = (r, "hidden")) then Some ""
    else a !! k.
Proof.
  unfold closed_attrs. destruct k as [e n]. cbn.
  destruct (main doc) as [m|];
    rewrite ?lookup_insert, ?lookup_delete, ?lookup_insert;
    repeat destruct (decide _); try reflexivity; exfalso;
    simplify_eq; cbn in *; intuition congruence.
Qed.

Lemma closed_attrs_idem (doc : document) (r : elem)
  (a : gmap (elem * string) string) :
  closed_attrs doc r (closed_attrs doc r a) = closed_attrs doc r a.
Proof.
  apply map_eq. intros k. rewrite !closed_attrs_lookup.
  repeat destruct (decide _); reflexivity.
Qed.

Lemma updateUI_run (rf : refs) (s : state) :
  run (Lightbox.updateUI rf) s
  = with_text (text (run (Lightbox.updateUI rf) s))
      (with_attr (attr (run (Lightbox.updateUI rf) s)) s).
Proof.
  destruct (updateUI_frame rf s) as (H1 & H2 & H3 & H4 & H5 & H6 & H7 & H8).
  cbn zeta in *. destruct (run (Lightbox.updateUI rf) s), s. cbn in *.
  unfold with_text, with_attr. cbn. congruence.
Qed.

Lemma hydrate_step (doc : document) (s : state) :
  run (fun s0 => when (Lightbox.is_empty (items s0))
                   (Lightbox.hydrateItems doc) s0) s
  = hydrated doc s.
Proof.
  unfold hydrated, run, when. destruct (Lightbox.is_empty (items s)); reflexivity.
Qed.

Lemma is_empty_false {A} (l : list A) : l <> [] -> Lightbox.is_empty l = false.
Proof. destruct l; [congruence | reflexivity]. Qed.

(** What a successful [open(idx)] leaves in the controller state. *)
Lemma open_fields (rf : refs) (doc : document) (r : elem) (idx : Z)
  (s : state) :
  root rf = Some r -> items (hydrated doc s) <> [] ->
  let s' := run (Lightbox.open rf doc idx) s in
  let container := default r (dialog rf) in
  items s' = items (hydrated doc s)
  /\ index s' = idx
  /\ lastFocused s' = A11y.html_element_or_null doc (activeElement s)
  /\ activeElement s' = activeElement s
  /\ releaseFocusFn s' = Some (mkRelease (closures s) (activeElement s))
  /\ keydown s' = keydown s ++ [HandleKeydown (closures s) container]
  /\ closures s' = S (closures s)
  /\ microtasks s'
     = microtasks s
       ++ [mkFocusTask (Js.or_elem (closeBtn rf) (dialog rf)) container].
Proof.
  intros Hr Hne. cbn zeta. unfold Lightbox.open, run at 1 2 3 4 5 6 7 8.
  rewrite Hr.
  change (fst (?a s)) with (run a s).
  rewrite run_andThen, hydrate_step.
  assert (Hh : activeElement (hydrated doc s) = activeElement s
               /\ keydown (hydrated doc s) = keydown s
               /\ closures (hydrated doc s) = closures s
               /\ microtasks (hydrated doc s) = microtasks s).
  { unfold hydrated. destruct (Lightbox.is_empty (items s)); cbn; auto. }
  destruct Hh as (<- & <- & <- & <-).
  generalize dependent (hydrated doc s). intros s1 Hne.
  unfold run at 1 2 3 4 5 6 7 8. rewrite (is_empty_false _ Hne).
  change (fst (?a s1)) with (run a s1).
  rewrite !run_andThen, preloadNeighbors_run.
  rewrite updateUI_run.
  match goal with
  | |- context [text ?u] => generalize (text u); generalize (attr u)
  end.
  intros A T.
  unfold Lightbox.setAriaHiddenForBackground.
  destruct (dialog rf), (main doc); cbn; repeat split; reflexivity.
Qed.

(** Rendering writes the [src] and [alt] of the image target only. *)
Lemma updateUI_attr_other (rf : refs) (s : state) (e : elem) (k : string) :
  k <> "src" -> k <> "alt" ->
  attr (run (Lightbox.updateUI rf) s) !! (e, k) = attr s !! (e, k).
Proof.
  intros H1 H2.
  unfold run, Lightbox.updateUI, A11y.announce, Utils.liveRegion, when,
    andThen, setAttribute, setTextContent, update, emit, skip.
  repeat case_match; simplify_eq; cbn; try reflexivity;
    rewrite !lookup_insert_ne by congruence; reflexivity.
Qed.

(** The markers a successful [open] leaves: hidden removed, open and
    aria-modal set. *)
Lemma open_is_open (rf : refs) (doc : document) (r : elem) (idx : Z)
  (s : state) :
  root rf = Some r -> items (hydrated doc s) <> [] ->
  is_open r (run (Lightbox.open rf doc idx) s).
Proof.
  intros Hr Hne. unfold is_open, Lightbox.open, run at 1 2 3.
  rewrite Hr.
  change (fst (?a s)) with (run a s).
  rewrite run_andThen, hydrate_step.
  generalize dependent (hydrated doc s). intros s1 Hne.
  unfold run at 1 2 3. rewrite (is_empty_false _ Hne).
  change (fst (?a s1)) with (run a s1).
  rewrite !run_andThen, preloadNeighbors_run.
  match goal with
  | |- context [run (Lightbox.updateUI rf) ?u] =>
      pose proof (updateUI_attr_other rf u r "hidden") as H1;
      pose proof (updateUI_attr_other rf u r "data-open") as H2;
      pose proof (updateUI_attr_other rf u r "aria-modal") as H3;
      rewrite (updateUI_run rf u)
  end.
  specialize (H1 ltac:(discriminate) ltac:(discriminate)).
  specialize (H2 ltac:(discriminate) ltac:(discriminate)).
  specialize (H3 ltac:(discriminate) ltac:(discriminate)).
  match goal with
  | |- context [text ?u] => generalize (text u)
  end.
  intros T.
  unfold Lightbox.setAriaHiddenForBackground.
  destruct (dialog rf), (main doc); cbn in *;
    rewrite ?lookup_insert_ne by congruence; rewrite H1, H2, H3;
    rewrite ?lookup_insert_ne by congruence;
    rewrite ?lookup_insert_eq; rewrite ?lookup_insert_ne by congruence;
    rewrite ?lookup_insert_eq; rewrite ?lookup_delete_eq; auto.
Qed.

(** The markers [close()] leaves: hidden set, open and aria-modal
    absent. *)
Lemma close_is_closed (rf : refs) (doc : document) (r : elem) (s : state) :
  root rf = Some r -> is_closed r (run (Lightbox.close rf doc) s).
Proof.
  intros Hr. unfold run. rewrite (close_closed_form rf doc r) by assumption.
  unfold is_closed. cbn. rewrite !closed_attrs_lookup. cbn.
  repeat split; repeat destruct (decide _);
    try reflexivity; try (eexists; reflexivity); exfalso;
    simplify_eq; cbn in *; intuition congruence.
Qed.

Lemma closed_attrs_fixed (doc : document) (r : elem)
  (a : gmap (elem * string) string) :
  a !! (r, "hidden") = Some "" -> a !! (r, "data-open") = None ->
  a !! (r, "aria-modal") = None ->
  (forall m, main doc = Some m -> a !! (m, "aria-hidden") = Some "false") ->
  closed_attrs doc r a = a.
Proof.
  intros Hh Ho Hm Hbg. apply map_eq. intros [e k].
  rewrite closed_attrs_lookup. cbn.
  repeat destruct (decide _); simplify_eq; try congruence.
  destruct a0 as [Hmain ->]. symmetry. apply Hbg. congruence.
Qed.

(** C5, as the code has it.  [close()] is idempotent: a second
    [close()] right after the first leaves exactly the state the first
    one left, and that state has the hidden marker set, the open and
    aria-modal markers absent, the background's aria-hidden reset to
    "false" and no focus trap handle.  [close] is a total function of
    the state: every dereference is guarded, so no call can raise;
    without a root it does nothing at all.  On a viewer that is already
    Closed, [close()] leaves it Closed and keeps the items, the index
    and the rendered text, but it is not a no-op: it announces "Image
    viewer closed" again, and it may write the empty hidden marker and
    the background's aria-hidden and move the focus back.  It leaves
    the state exactly as it was when those are already in place: hidden
    is "", the background's aria-hidden is "false", no release handle
    is stored and the focus restore has nothing to move. *)
Theorem close_idempotent (rf : refs) (doc : document) (s : state) :
  let once := run (Lightbox.close rf doc) s in
  run (Lightbox.close rf doc) once = once
  /\ out (Lightbox.close rf doc) once = out (Lightbox.close rf doc) s
  /\ match root rf with
     | Some r =>
         is_closed r once
         /\ releaseFocusFn once = None
         /\ match main doc with
            | Some m => attr once !! (m, "aria-hidden") = Some "false"
            | None => True
            end
     | None => once = s
     end
  /\ (forall r, root rf = Some r -> is_closed r s ->
        is_closed r once
        /\ items once = items s /\ index once = index s
        /\ text once = text s
        /\ out (Lightbox.close rf doc) s
           = [Announce Polite "Image viewer closed"]
        /\ (attr s !! (r, "hidden") = Some "" ->
            (forall m, main doc = Some m ->
                       attr s !! (m, "aria-hidden") = Some "false") ->
            releaseFocusFn s = None ->
            focus_moved doc (lastFocused s) (activeElement s)
            = activeElement s ->
            once = s)).
Proof.
  cbn zeta. unfold run, out. destruct (root rf) as [r|] eqn:Hr.
  - pose proof (close_is_closed rf doc r s Hr) as Hc. unfold run in Hc.
    rewrite !(close_closed_form rf doc r) in * by assumption.
    cbn in *.
    split; [|split; [reflexivity|]]; [|split; [split; [exact Hc|split]|]].
    + unfold closed_keydown at 1, closed_focus. cbn.
      change (focus_moved doc None ?c) with c.
      rewrite closed_attrs_idem, focus_moved_idem. reflexivity.
    + reflexivity.
    + destruct (main doc) as [m|] eqn:Hm; [|exact I].
      rewrite closed_attrs_lookup. cbn. rewrite Hm.
      destruct (decide _) as [_|Hn]; [reflexivity|]. exfalso. apply Hn. auto.
    + intros r' Hr' (_ & Hopen & Hmodal). injection Hr' as <-.
      split; [exact Hc|]. repeat (split; [reflexivity|]).
      intros Hh Hbg Hrel Hfocus.
      unfold closed_keydown, closed_focus. rewrite Hrel. cbn.
      rewrite Hfocus, (closed_attrs_fixed doc r) by assumption.
      destruct s. cbn in *. subst. reflexivity.
  - rewrite !close_no_root by assumption. cbn.
    do 3 (split; [reflexivity|]). intros r0 Hr0. discriminate.
Qed.

Lemma close_idempotent_witness :
  let closed :=
    run (Lightbox.close Sample.the_refs Sample.page) (Sample.initial []) in
  is_closed 100%nat closed
  /\ run (Lightbox.close Sample.the_refs Sample.page) closed = closed
  /\ out (Lightbox.close Sample.the_refs Sample.page) closed
     = [Announce Polite "Image viewer closed"].
Proof.
  cbn zeta.
  destruct (close_idempotent Sample.the_refs Sample.page
              (run (Lightbox.close Sample.the_refs Sample.page)
                 (Sample.initial []))) as (_ & _ & _ & Hclosed).
  assert (Hc : is_closed 100%nat
                 (run (Lightbox.close Sample.the_refs Sample.page)
                    (Sample.initial []))).
  { split; [eexists; reflexivity | split; reflexivity]. }
  destruct (Hclosed 100%nat eq_refl Hc) as (_ & _ & _ & _ & Hout & Hsame).
  split; [exact Hc|]. split; [|exact Hout].
  apply Hsame.
  - reflexivity.
  - intros m Hm. injection Hm as <-. reflexivity.
  - reflexivity.
  - reflexivity.
Defined.

(** C5 as stated fails in its second half: on the page as it loads
    (root hidden, nothing opened yet) the viewer is Closed, yet
    [close()] changes the state -- it writes aria-hidden="false" on the
    background, which had no such attribute -- and announces
    "Image viewer closed". *)
Lemma close_on_closed_not_noop :
  let s := Sample.initial [] in
  is_closed 100%nat s
  /\ run (Lightbox.close Sample.the_refs Sample.page) s <> s
  /\ attr s !! (2%nat, "aria-hidden") = None
  /\ attr (run (Lightbox.close Sample.the_refs Sample.page) s)
       !! (2%nat, "aria-hidden") = Some "false"
  /\ out (Lightbox.close Sample.the_refs Sample.page) s
     = [Announce Polite "Image viewer closed"].
Proof.
  cbn zeta. split; [|split; [|repeat split; reflexivity]].
  - split; [eexists; reflexivity | split; reflexivity].
  - intros H.
    apply (f_equal (fun x => attr x !! (2%nat, "aria-hidden"))) in H.
    vm_compute in H. discriminate.
Qed.

(** ** Focus memory *)

Lemma run_focus_tasks_frame (doc : document) (ts : list focus_task)
  (s : state) :
  let s' := run (Utils.run_focus_tasks doc ts) s in
  items s' = items s /\ index s' = index s
  /\ releaseFocusFn s' = releaseFocusFn s /\ lastFocused s' = lastFocused s
  /\ attr s' = attr s /\ keydown s' = keydown s.
Proof.
  revert s. induction ts as [|t ts IH]; intros s; cbn zeta.
  - cbn. auto 10.
  - cbn [Utils.run_focus_tasks]. rewrite run_andThen.
    destruct (IH (run (Utils.run_focus_task doc t) s))
      as (-> & -> & -> & -> & -> & ->).
    unfold Utils.run_focus_task, Utils.focus, run, update. cbn.
    destruct (can_focus doc _); cbn; auto 10.
Qed.

Lemma drain_microtasks_frame (doc : document) (s : state) :
  let s' := run (Utils.drain_microtasks doc) s in
  items s' = items s /\ index s' = index s
  /\ releaseFocusFn s' = releaseFocusFn s /\ lastFocused s' = lastFocused s
  /\ attr s' = attr s /\ keydown s' = keydown s.
Proof.
  cbn zeta. unfold Utils.drain_microtasks.
  change (run (fun s0 => Utils.run_focus_tasks doc (microtasks s0)
                           (with_microtasks [] s0)) s)
    with (run (Utils.run_focus_tasks doc (microtasks s))
            (with_microtasks [] s)).
  destruct (run_focus_tasks_frame doc (microtasks s) (with_microtasks [] s))
    as (-> & -> & -> & -> & -> & ->).
  cbn. auto 10.
Qed.

(** [close()] ends on the controller's own restore: with a root and a
    remembered element that can take the focus, the focus ends there
    whatever the trap's release did before. *)
Lemma close_restores_lastFocused (rf : refs) (doc : document) (r t : elem)
  (s : state) :
  root rf = Some r -> lastFocused s = Some t -> can_focus doc t = true ->
  activeElement (run (Lightbox.close rf doc) s) = Some t.
Proof.
  intros Hr Hl Hf. unfold run. rewrite (close_closed_form rf doc r) by assumption.
  cbn. unfold closed_focus. rewrite Hl. cbn. rewrite Hf. reflexivity.
Qed.

(** C6. With a root, a non-empty snapshot and the focus on a trigger
    [t] that can take the focus back, [open(k)] followed by [close()]
    leaves the focus on [t], whether or not the trap's queued initial
    focus ran in between.  When the trigger is an HTML element the
    controller remembers it, and [close()] applies the controller's own
    restore after the trap's release: whatever element a trap handle
    recorded, the focus ends on the element the controller
    remembered. *)
Theorem focus_round_trip (rf : refs) (doc : document) (r t : elem) (k : Z)
  (s : state) :
  root rf = Some r -> items (hydrated doc s) <> [] ->
  activeElement s = Some t -> can_focus doc t = true ->
  let opened := run (Lightbox.open rf doc k) s in
  activeElement (run (Lightbox.close rf doc) opened) = Some t
  /\ activeElement
       (run (Lightbox.close rf doc) (run (Utils.drain_microtasks doc) opened))
     = Some t
  /\ (is_html doc t = true ->
      lastFocused opened = Some t
      /\ forall rel : release,
           activeElement
             (run (Lightbox.close rf doc)
                (with_releaseFocusFn (Some rel) opened))
           = Some t).
Proof.
  intros Hr Hne Ha Hf. cbn zeta.
  destruct (open_fields rf doc r k s Hr Hne) as (_ & _ & Hl & _ & Hrel & _).
  cbn zeta in Hl, Hrel. rewrite Ha in Hl, Hrel. cbn in Hl.
  destruct (drain_microtasks_frame doc (run (Lightbox.open rf doc k) s))
    as (_ & _ & Hdr & Hdl & _).
  cbn zeta in Hdr, Hdl.
  destruct (is_html doc t) eqn:Hh.
  - split; [|split].
    + apply (close_restores_lastFocused rf doc r); assumption.
    + apply (close_restores_lastFocused rf doc r); try assumption.
      rewrite Hdl. exact Hl.
    + intros _. split; [exact Hl|].
      intros rel. apply (close_restores_lastFocused rf doc r); assumption.
  - split; [|split; [|discriminate]].
    + unfold run at 1. rewrite (close_closed_form rf doc r) by assumption.
      cbn. unfold closed_focus. rewrite Hl, Hrel. cbn. rewrite Hf. reflexivity.
    + unfold run at 1. rewrite (close_closed_form rf doc r) by assumption.
      cbn. unfold closed_focus. rewrite Hdl, Hdr, Hl, Hrel. cbn. rewrite Hf.
      reflexivity.
Qed.

Lemma focus_round_trip_witness :
  let opened :=
    run (Lightbox.open Sample.the_refs Sample.page 1) (Sample.initial []) in
  activeElement (run (Utils.drain_microtasks Sample.page) opened)
  = Some 102%nat
  /\ activeElement
       (run (Lightbox.close Sample.the_refs Sample.page)
          (run (Utils.drain_microtasks Sample.page) opened))
     = Some 22%nat.
Proof.
  cbn zeta. split; [reflexivity|].
  refine (proj1 (proj2
    (focus_round_trip Sample.the_refs Sample.page 100%nat 22%nat 1
       (Sample.initial []) _ _ _ _))).
  - reflexivity.
  - vm_compute. discriminate.
  - reflexivity.
  - reflexivity.
Defined.

(** ** Re-opening an open viewer *)

Lemma hydrated_nonempty (doc : document) (s : state) :
  items s <> [] -> hydrated doc s = s.
Proof. intros H. unfold hydrated. rewrite (is_empty_false _ H). reflexivity. Qed.

Lemma close_keydown_without_handle (rf : refs) (doc : document) (s : state) :
  releaseFocusFn s = None ->
  keydown (run (Lightbox.close rf doc) s) = keydown s
  /\ releaseFocusFn (run (Lightbox.close rf doc) s) = None.
Proof.
  intros Hn. unfold run. destruct (root rf) as [r|] eqn:Hr.
  - rewrite (close_closed_form rf doc r) by assumption. cbn.
    unfold closed_keydown. rewrite Hn. auto.
  - rewrite close_no_root by assumption. cbn. auto.
Qed.

Lemma iter_close_keydown (rf : refs) (doc : document) (k : nat) (s : state) :
  releaseFocusFn s = None ->
  keydown (Nat.iter k (run (Lightbox.close rf doc)) s) = keydown s
  /\ releaseFocusFn (Nat.iter k (run (Lightbox.close rf doc)) s) = None.
Proof.
  intros Hn. induction k as [|k [IHk IHr]]; [cbn; auto|].
  rewrite Nat.iter_succ.
  destruct (close_keydown_without_handle rf doc _ IHr) as [-> ->]. auto.
Qed.

Lemma removeEventListener_other (h h' : nat) (c : elem) (l : list listener) :
  h <> h' ->
  HandleKeydown h' c ∈ l ->
  HandleKeydown h' c ∈ Utils.removeEventListener h l.
Proof.
  intros Hne Hin. unfold Utils.removeEventListener.
  apply list_elem_of_In, filter_In. split; [apply list_elem_of_In, Hin|].
  cbn. destruct (Nat.eqb_spec h h'); [contradiction | reflexivity].
Qed.

Lemma removeEventListener_gone (h : nat) (c : elem) (l : list listener) :
  HandleKeydown h c ∉ Utils.removeEventListener h l.
Proof.
  unfold Utils.removeEventListener. intros Hin.
  apply list_elem_of_In, filter_In in Hin. destruct Hin as [_ Hb].
  cbn in Hb. rewrite Nat.eqb_refl in Hb. discriminate.
Qed.

(** C10. When [open] is called on a viewer that is already open, the
    handle of the first trap is replaced by the handle of a new trap and
    is not called: the first trap's [keydown] listener is still
    registered after the second [open], and it is still registered
    after any number of [close()] calls, which remove the second trap's
    listener only. *)
Theorem reopen_leaks_trap_listener (rf : refs) (doc : document) (r : elem)
  (i j : Z) (s : state) :
  root rf = Some r -> items (hydrated doc s) <> [] ->
  let container := default r (dialog rf) in
  let first := HandleKeydown (closures s) container in
  let second := HandleKeydown (S (closures s)) container in
  let s1 := run (Lightbox.open rf doc i) s in
  let s2 := run (Lightbox.open rf doc j) s1 in
  releaseFocusFn s1 = Some (mkRelease (closures s) (activeElement s))
  /\ releaseFocusFn s2 = Some (mkRelease (S (closures s)) (activeElement s))
  /\ keydown s2 = keydown s ++ [first; second]
  /\ forall k : nat,
       let closed := Nat.iter (S k) (run (Lightbox.close rf doc)) s2 in
       first ∈ keydown closed /\ (second ∉ keydown closed)
       /\ releaseFocusFn closed = None.
Proof.
  intros Hr Hne. cbn zeta.
  destruct (open_fields rf doc r i s Hr Hne)
    as (Hit1 & _ & _ & Hae1 & Hrel1 & Hkd1 & Hcl1 & _).
  cbn zeta in *.
  assert (Hne1 : items (hydrated doc (run (Lightbox.open rf doc i) s)) <> []).
  { rewrite hydrated_nonempty; rewrite Hit1; assumption. }
  destruct (open_fields rf doc r j _ Hr Hne1)
    as (_ & _ & _ & _ & Hrel2 & Hkd2 & _ & _).
  cbn zeta in *. rewrite Hcl1, Hae1 in Hrel2. rewrite Hcl1, Hkd1 in Hkd2.
  rewrite <- app_assoc in Hkd2. cbn [app] in Hkd2.
  split; [exact Hrel1|]. split; [exact Hrel2|]. split; [exact Hkd2|].
  intros k. rewrite Nat.iter_succ_r.
  set (s2 := run (Lightbox.open rf doc j) (run (Lightbox.open rf doc i) s))
    in *.
  assert (Hc : keydown (run (Lightbox.close rf doc) s2)
               = Utils.removeEventListener (S (closures s)) (keydown s2)
               /\ releaseFocusFn (run (Lightbox.close rf doc) s2) = None).
  { unfold run. rewrite (close_closed_form rf doc r) by assumption. cbn.
    unfold closed_keydown. rewrite Hrel2. auto. }
  destruct Hc as [Hkc Hrc].
  destruct (iter_close_keydown rf doc k _ Hrc) as [-> ->].
  rewrite Hkc, Hkd2. split; [|split; [|reflexivity]].
  - apply removeEventListener_other; [lia|].
    apply elem_of_app. right. apply list_elem_of_here.
  - apply removeEventListener_gone.
Qed.

Lemma reopen_leaks_trap_listener_witness :
  let s2 := run (Lightbox.open Sample.the_refs Sample.page 2)
              (run (Lightbox.open Sample.the_refs Sample.page 0)
                 (Sample.initial [])) in
  keydown s2 = [OnKeydown; HandleKeydown 0 101%nat; HandleKeydown 1 101%nat]
  /\ keydown (run (Lightbox.close Sample.the_refs Sample.page) s2)
     = [OnKeydown; HandleKeydown 0 101%nat]
  /\ HandleKeydown 0 101%nat
     ∈ keydown (Nat.iter 3 (run (Lightbox.close Sample.the_refs Sample.page)) s2).
Proof.
  cbn zeta. split; [reflexivity|]. split; [reflexivity|].
  destruct (reopen_leaks_trap_listener Sample.the_refs Sample.page 100%nat
              0 2 (Sample.initial [])) as (_ & _ & _ & H).
  - reflexivity.
  - vm_compute. discriminate.
  - exact (proj1 (H 2%nat)).
Defined.

(** ** The index invariant *)

Lemma close_keeps_index (rf : refs) (doc : document) (s : state) :
  items (run (Lightbox.close rf doc) s) = items s
  /\ index (run (Lightbox.close rf doc) s) = index s.
Proof.
  unfold run. destruct (root rf) as [r|] eqn:Hr.
  - rewrite (close_closed_form rf doc r) by assumption. cbn. auto.
  - rewrite close_no_root by assumption. cbn. auto.
Qed.

Lemma next_in_range (rf : refs) (s : state) :
  index_in_range s -> index_in_range (run (Lightbox.next rf) s).
Proof.
  unfold index_in_range. intros Hs.
  destruct (items s) as [|c l] eqn:E.
  - unfold run, Lightbox.next. rewrite E. cbn. rewrite E. congruence.
  - rewrite <- E in Hs.
    assert (Hne : items s <> []) by (rewrite E; discriminate).
    destruct (next_index rf s Hne) as [-> ->]. intros _.
    pose proof (len_pos _ Hne). specialize (Hs Hne).
    rewrite nextIndex_mod by lia. apply Z.mod_pos_bound. lia.
Qed.

Lemma prev_in_range (rf : refs) (s : state) :
  index_in_range s -> index_in_range (run (Lightbox.prev rf) s).
Proof.
  unfold index_in_range. intros Hs.
  destruct (items s) as [|c l] eqn:E.
  - unfold run, Lightbox.prev. rewrite E. cbn. rewrite E. congruence.
  - rewrite <- E in Hs.
    assert (Hne : items s <> []) by (rewrite E; discriminate).
    destruct (prev_index rf s Hne) as [-> ->]. intros _.
    pose proof (len_pos _ Hne). specialize (Hs Hne).
    rewrite prevIndex_mod by lia. apply Z.mod_pos_bound. lia.
Qed.

(** C1, as the code has it.  [next()], [prev()] and [close()] keep
    [0 <= index < items.length] whenever there are items.  [open(index)]
    does not clamp: when it opens the viewer it stores the index it was
    given, so the invariant holds afterwards exactly when the given
    index is in range. *)
Theorem index_invariant (rf : refs) (doc : document) (s : state) :
  (index_in_range s ->
   index_in_range (run (Lightbox.next rf) s)
   /\ index_in_range (run (Lightbox.prev rf) s)
   /\ index_in_range (run (Lightbox.close rf doc) s))
  /\ (forall (r : elem) (idx : Z),
        root rf = Some r -> items (hydrated doc s) <> [] ->
        let s' := run (Lightbox.open rf doc idx) s in
        items s' = items (hydrated doc s)
        /\ index s' = idx
        /\ (index_in_range s' <-> 0 <= idx < Js.len (items s'))).
Proof.
  split.
  - intros Hs. split; [apply next_in_range, Hs|].
    split; [apply prev_in_range, Hs|].
    unfold index_in_range. destruct (close_keeps_index rf doc s) as [-> ->].
    exact Hs.
  - intros r idx Hr Hne. cbn zeta.
    destruct (open_fields rf doc r idx s Hr Hne) as (Hit & Hix & _).
    cbn zeta in Hit, Hix. split; [exact Hit|]. split; [exact Hix|].
    unfold index_in_range. rewrite Hix, Hit. split; [|auto].
    intros H. apply H, Hne.
Qed.

Lemma index_invariant_witness :
  let s := Sample.initial Sample.three_items in
  index_in_range (run (Lightbox.next Sample.the_refs) s)
  /\ index (run (Lightbox.open Sample.the_refs Sample.page 2) s) = 2.
Proof.
  cbn zeta.
  destruct (index_invariant Sample.the_refs Sample.page
              (Sample.initial Sample.three_items)) as [Hnav Hopen].
  split.
  - apply Hnav. intros _. vm_compute. split; [discriminate | reflexivity].
  - refine (proj1 (proj2 (Hopen 100%nat 2 _ _))).
    + reflexivity.
    + vm_compute. discriminate.
Defined.

(** C1 as stated fails: on three items, [open(7)] leaves the index at
    7, neither in range nor reset to 0. *)
Lemma open_does_not_clamp :
  let s := Sample.initial Sample.three_items in
  let s' := run (Lightbox.open Sample.the_refs Sample.page 7) s in
  index_in_range s /\ items s' = Sample.three_items
  /\ index s' = 7 /\ ~ index_in_range s'.
Proof.
  cbn zeta. split; [|split; [|split]].
  - intros _. vm_compute. split; [discriminate | reflexivity].
  - reflexivity.
  - reflexivity.
  - intros H. assert (Hr : 0 <= 7 < 3); [|lia].
    apply H. vm_compute. discriminate.
Qed.

(** ** The empty gallery *)

Lemma with_items_same (s : state) : with_items (items s) s = s.
Proof. destruct s. reflexivity. Qed.

(** C7. With an empty snapshot that hydration leaves empty, [open],
    [next] and [prev] return the state they were given and emit
    nothing; in particular a closed root stays closed.  The three are
    total functions of the state, so no call can raise. *)
Theorem empty_gallery_noop (rf : refs) (doc : document) (idx : Z)
  (s : state) :
  items s = [] -> items (run (Lightbox.hydrateItems doc) s) = [] ->
  Lightbox.open rf doc idx s = (s, [])
  /\ Lightbox.next rf s = (s, [])
  /\ Lightbox.prev rf s = (s, [])
  /\ (forall r : elem,
        is_closed r s -> is_closed r (run (Lightbox.open rf doc idx) s)).
Proof.
  intros He Hh.
  assert (Ho : Lightbox.open rf doc idx s = (s, [])).
  { unfold Lightbox.open. destruct (root rf) as [r|]; [|reflexivity].
    unfold andThen, when. rewrite He. cbn [Lightbox.is_empty].
    unfold Lightbox.hydrateItems, update in *. cbn in Hh. rewrite Hh.
    cbn. rewrite <- He at 1. rewrite with_items_same. reflexivity. }
  split; [exact Ho|]. split; [|split].
  - unfold Lightbox.next. rewrite He. reflexivity.
  - unfold Lightbox.prev. rewrite He. reflexivity.
  - intros r Hc. unfold run. rewrite Ho. exact Hc.
Qed.

Lemma empty_gallery_noop_witness :
  let doc := Sample.page_with (Some Sample.empty_grid) in
  Lightbox.open Sample.the_refs doc 0 (Sample.initial [])
  = (Sample.initial [], [])
  /\ is_closed 100%nat (run (Lightbox.open Sample.the_refs doc 0)
                          (Sample.initial [])).
Proof.
  cbn zeta.
  destruct (empty_gallery_noop Sample.the_refs
              (Sample.page_with (Some Sample.empty_grid)) 0
              (Sample.initial [])) as (Ho & _ & _ & Hc).
  - reflexivity.
  - reflexivity.
  - split; [exact Ho|]. apply Hc.
    split; [eexists; reflexivity | split; reflexivity].
Defined.

(** ** The root click handler *)

(** The root-level click handler, taken alone, calls [close()] exactly
    when the click target is the root itself or the backdrop element:
    for such a target it behaves as [close()] and leaves the viewer
    closed; for any other target it returns the state unchanged and
    emits nothing.  (The other click listeners are not part of this
    statement.) *)
Theorem backdrop_click_closes (rf : refs) (doc : document) (r target : elem)
  (s : state) :
  root rf = Some r ->
  (target = r \/ Some target = backdrop rf ->
   Lightbox.onBackdropClick rf doc target s = Lightbox.close rf doc s)
  /\ (target <> r -> Some target <> backdrop rf ->
      Lightbox.onBackdropClick rf doc target s = (s, []))
  /\ (is_open r s ->
      (is_closed r (run (Lightbox.onBackdropClick rf doc target) s)
       <-> target = r \/ Some target = backdrop rf)).
Proof.
  intros Hr.
  assert (Hyes : target = r \/ Some target = backdrop rf ->
                 Lightbox.onBackdropClick rf doc target s
                 = Lightbox.close rf doc s).
  { intros Hm. unfold Lightbox.onBackdropClick. rewrite Hr.
    destruct Hm as [-> | Hb].
    - rewrite bool_decide_eq_true_2 by reflexivity. reflexivity.
    - rewrite (bool_decide_eq_true_2 (Some target = backdrop rf)) by assumption.
      rewrite orb_true_r. reflexivity. }
  assert (Hno : target <> r -> Some target <> backdrop rf ->
                Lightbox.onBackdropClick rf doc target s = (s, [])).
  { intros Hn1 Hn2. unfold Lightbox.onBackdropClick. rewrite Hr.
    rewrite bool_decide_eq_false_2 by congruence.
    rewrite bool_decide_eq_false_2 by assumption. reflexivity. }
  split; [exact Hyes|]. split; [exact Hno|].
  intros (Hh & _ & _). split.
  - intros (Hc & _).
    destruct (decide (target = r)) as [|Hn1]; [auto|].
    destruct (decide (Some target = backdrop rf)) as [|Hn2]; [auto|].
    exfalso. unfold run in Hc. rewrite (Hno Hn1 Hn2) in Hc. cbn in Hc.
    rewrite Hh in Hc. destruct Hc as [v Hv]. discriminate.
  - intros Hm. unfold run. rewrite (Hyes Hm).
    apply (close_is_closed rf doc r s Hr).
Qed.

Lemma backdrop_click_closes_witness :
  let opened :=
    run (Lightbox.open Sample.the_refs Sample.page 0) (Sample.initial []) in
  is_open 100%nat opened
  /\ is_closed 100%nat
       (run (Lightbox.onBackdropClick Sample.the_refs Sample.page 108%nat)
          opened)
  /\ Lightbox.onBackdropClick Sample.the_refs Sample.page 103%nat opened
     = (opened, []).
Proof.
  cbn zeta.
  assert (Ho : is_open 100%nat
                 (run (Lightbox.open Sample.the_refs Sample.page 0)
                    (Sample.initial []))).
  { vm_compute. auto. }
  destruct (backdrop_click_closes Sample.the_refs Sample.page 100%nat 108%nat
              (run (Lightbox.open Sample.the_refs Sample.page 0)
                 (Sample.initial [])) eq_refl) as (_ & _ & Hiff).
  destruct (backdrop_click_closes Sample.the_refs Sample.page 100%nat 103%nat
              (run (Lightbox.open Sample.the_refs Sample.page 0)
                 (Sample.initial [])) eq_refl) as (_ & Hno & _).
  split; [exact Ho|]. split.
  - apply (Hiff Ho). right. reflexivity.
  - apply Hno; discriminate.
Defined.

(** ** Rendering: the announcement *)

Lemma updateUI_out (rf : refs) (s : state) (card : node) :
  Js.at_index (items s) (index s) = Some card ->
  out (Lightbox.updateUI rf) s
  = [Announce Polite
       (Lightbox.announcement (index s) (Js.len (items s))
          (Lightbox.caption_of card))].
Proof.
  intros Hc. unfold out, Lightbox.updateUI. rewrite Hc.
  unfold A11y.announce, Utils.liveRegion, when, andThen, setAttribute,
    setTextContent, update, emit, skip.
  repeat case_match; simplify_eq; reflexivity.
Qed.

Lemma append_empty_r (a : string) : a +:+ "" = a.
Proof.
  induction a as [|c a IH]; [reflexivity|].
  change (String c (a +:+ "") = String c a). rewrite IH. reflexivity.
Qed.

(** C8. Rendering item [i] of [n] hands exactly one message to the
    live region, politely: "Image {i+1} of {n}" when the resolved
    caption is empty, and "Image {i+1} of {n}, {caption}" otherwise. *)
Theorem announcement_text (rf : refs) (s : state) (card : node) :
  Js.at_index (items s) (index s) = Some card ->
  let i := index s in
  let n := Js.len (items s) in
  let cap := Lightbox.caption_of card in
  (cap = "" ->
   out (Lightbox.updateUI rf) s
   = [Announce Polite ("Image " +:+ Js.num (i + 1) +:+ " of " +:+ Js.num n)])
  /\ (cap <> "" ->
      out (Lightbox.updateUI rf) s
      = [Announce Polite
           ("Image " +:+ Js.num (i + 1) +:+ " of " +:+ Js.num n
            +:+ ", " +:+ cap)]).
Proof.
  intros Hc. cbn zeta. rewrite (updateUI_out rf s card Hc).
  unfold Lightbox.announcement, Js.truthy. split.
  - intros ->. cbn [String.eqb negb]. rewrite append_empty_r. reflexivity.
  - intros Hne. destruct (String.eqb_spec (Lightbox.caption_of card) "");
      [contradiction | reflexivity].
Qed.

Lemma announcement_text_witness :
  out (Lightbox.updateUI Sample.the_refs)
    (with_index 1 (Sample.initial Sample.three_items))
  = [Announce Polite "Image 2 of 3"]
  /\ out (Lightbox.updateUI Sample.the_refs)
       (with_index 2 (Sample.initial Sample.three_items))
     = [Announce Polite "Image 3 of 3, Bird in flight"].
Proof.
  split.
  - exact (proj1 (announcement_text Sample.the_refs
                    (with_index 1 (Sample.initial Sample.three_items))
                    Sample.dog eq_refl) eq_refl).
  - refine (proj2 (announcement_text Sample.the_refs
                     (with_index 2 (Sample.initial Sample.three_items))
                     Sample.bird eq_refl) _).
    vm_compute. discriminate.
Defined.

(** ** Rendering: the image source *)

(** A non-empty [data-full] on the card itself is the source, whatever
    the nested image and link carry. *)
Lemma direct_full_source_wins (card : node) :
  Js.truthy (getAttribute card "data-full") = true ->
  Lightbox.image_source card = getAttribute card "data-full".
Proof. intros H. unfold Lightbox.image_source, Js.or. rewrite H. reflexivity. Qed.

(** The nested image's plain [src] is consulted before any link: when
    neither [data-full] is usable and the image has a [src], that [src]
    is the source and the link's [href] is not looked at. *)
Lemma nested_src_before_link (card imgEl : node) :
  querySelector card [ByTag "img"] = Some imgEl ->
  Js.truthy (getAttribute card "data-full") = false ->
  Js.truthy (getAttribute imgEl "data-full") = false ->
  Js.truthy (getAttribute imgEl "src") = true ->
  Lightbox.image_source card = getAttribute imgEl "src".
Proof.
  intros Hq H1 H2 H3. unfold Lightbox.image_source, Js.or.
  rewrite Hq, H1. cbn. rewrite H2, H3. reflexivity.
Qed.

(** C4, at a card with a thumbnail image and a link to the full image
    and no [data-full] anywhere: [updateUI] resolves the thumbnail's
    [src], because it tries the nested image's [src] before the link's
    [href], and opening the viewer on that card shows the thumbnail;
    [preloadNeighbors] resolves the link's [href] for the same card.
    On a card with [data-full] on itself and on its image, the card's
    own attribute is the source. *)
Theorem image_source_thumbnail_before_link :
  getAttribute Sample.dog "data-full" = None
  /\ Lightbox.image_source Sample.dog = Some "/thumb/dog.jpg"
  /\ attr (run (Lightbox.open Sample.the_refs Sample.page 1)
             (Sample.initial [])) !! (103%nat, "src")
     = Some "/thumb/dog.jpg"
  /\ Lightbox.preload_source (Some Sample.dog) = Some "/full/dog.jpg"
  /\ Lightbox.image_source Sample.cat = Some "/full/cat.jpg".
Proof. repeat split; reflexivity. Qed.

(** ** Hydration in the gallery and in the lightbox *)

(** Both controllers filter the same descendants of the grid; they
    agree when every element carrying the [gallery__item] class also
    carries the [data-gallery-item] attribute. *)
Lemma hydration_agrees (g : node) :
  (forall n, In n (descendants g) ->
             has_class "gallery__item" n = true ->
             has_attr "data-gallery-item" n = true) ->
  Utils.qsa g Lightbox.item_selector = Utils.qsa g Gallery.item_selector.
Proof.
  intros H. unfold Utils.qsa, querySelectorAll. apply filter_ext_in.
  intros n Hn. unfold matches, Lightbox.item_selector, Gallery.item_selector.
  cbn. specialize (H n Hn).
  destruct (has_attr "data-gallery-item" n); [reflexivity|].
  destruct (has_class "gallery__item" n); [|reflexivity].
  discriminate (H eq_refl).
Qed.

Lemma indexOf_from_at (l : list node) (card : node) (k i : Z) :
  0 <= k -> Gallery.indexOf_from k l card = i -> 0 <= i ->
  exists x, Js.at_index l (i - k) = Some x /\ same_node x card = true.
Proof.
  revert k. induction l as [|y l IH]; intros k Hk Hi Hpos; cbn in Hi.
  - lia.
  - destruct (same_node y card) eqn:E.
    + subst i. exists y. rewrite Z.sub_diag. auto.
    + destruct (IH (k + 1) ltac:(lia) Hi Hpos) as (x & Hx & Hs).
      exists x. split; [|exact Hs].
      unfold Js.at_index in *.
      destruct (i - (k + 1) <? 0) eqn:E1; [discriminate|].
      apply Z.ltb_ge in E1.
      assert (E2 : (i - k <? 0) = false) by (apply Z.ltb_ge; lia).
      rewrite E2. replace (Z.to_nat (i - k)) with (S (Z.to_nat (i - (k + 1))))
        by lia.
      exact Hx.
Qed.

(** On a snapshot shared by both controllers, the index carried by the
    open request selects the requested card. *)
Lemma open_request_selects (l : list node) (card : node) (i : Z) :
  Gallery.open_request l card = Some i ->
  exists x, Js.at_index l i = Some x /\ same_node x card = true.
Proof.
  unfold Gallery.open_request, Gallery.indexOf. intros H.
  destruct (0 <=? Gallery.indexOf_from 0 l card) eqn:E; [|discriminate].
  injection H as <-. apply Z.leb_le in E.
  destruct (indexOf_from_at l card 0 _ ltac:(lia) eq_refl E) as (x & Hx & Hs).
  rewrite Z.sub_0_r in Hx. eauto.
Qed.

(** C3, on a grid whose first card is marked by the [gallery__item]
    class only and whose second card by [data-gallery-item]: the gallery
    hydrates one item, the lightbox two; the gallery requests index 0
    for the second card, index 0 of the lightbox's snapshot is the
    first card, and the viewer opened by that request shows the first
    card's image. *)
Theorem hydration_mismatch :
  let doc := Sample.page_with (Some Sample.mixed_grid) in
  let gallery_items := Gallery.hydrateItems doc [] in
  let lightbox_items :=
    items (run (Lightbox.hydrateItems doc) (Sample.initial [])) in
  let request := Gallery.open_request gallery_items Sample.dog in
  gallery_items = [Sample.dog]
  /\ lightbox_items = [Sample.fish; Sample.dog]
  /\ request = Some 0
  /\ Js.at_index lightbox_items 0 = Some Sample.fish
  /\ same_node Sample.fish Sample.dog = false
  /\ attr (run (Lightbox.onOpenRequest Sample.the_refs doc request)
             (Sample.initial [])) !! (103%nat, "src")
     = Some "/full/fish.jpg".
Proof. cbn zeta. repeat split; reflexivity. Qed.

(** * Further properties of the scripts *)

(** ** lightbox.js: keyboard, rendering, the open/close cycle *)

Lemma out_andThen (a b : action) (s : state) :
  out (a >>> b) s = out a s ++ out b (run a s).
Proof.
  unfold out, run, andThen. destruct (a s) as [s1 o1]. cbn.
  destruct (b s1) as [s2 o2]. reflexivity.
Qed.


(** X1. After [close()] the document's key handler ignores every key: the
    open marker is gone, so Escape and the arrows neither change the
    state nor announce anything. *)
Theorem keys_inert_after_close (rf : refs) (doc : document) (key : string)
  (s : state) :
  Lightbox.onKeydown rf doc key (run (Lightbox.close rf doc) s)
  = (run (Lightbox.close rf doc) s, []).
Proof.
  unfold Lightbox.onKeydown. destruct (root rf) as [r|] eqn:Hr; [|reflexivity].
  destruct (close_is_closed rf doc r s Hr) as (_ & Hopen & _).
  unfold hasAttribute. rewrite Hopen.
  rewrite bool_decide_eq_false_2; [reflexivity|].
  intros [v Hv]. discriminate.
Qed.

(** The lightbox's own key listener, taken alone, on a viewer that
    [open] has just opened: Escape is [close()], ArrowRight is
    [next()], ArrowLeft is [prev()], and it ignores any other key.
    (The trap's listener is not part of this statement.) *)
Theorem keys_on_open_viewer (rf : refs) (doc : document) (r : elem) (idx : Z)
  (key : string) (s : state) :
  root rf = Some r -> items (hydrated doc s) <> [] ->
  let opened := run (Lightbox.open rf doc idx) s in
  Lightbox.onKeydown rf doc "Escape" opened = Lightbox.close rf doc opened
  /\ Lightbox.onKeydown rf doc "ArrowRight" opened = Lightbox.next rf opened
  /\ Lightbox.onKeydown rf doc "ArrowLeft" opened = Lightbox.prev rf opened
  /\ (key <> "Escape" -> key <> "ArrowRight" -> key <> "ArrowLeft" ->
      Lightbox.onKeydown rf doc key opened = (opened, [])).
Proof.
  intros Hr Hne. cbn zeta.
  destruct (open_is_open rf doc r idx s Hr Hne) as (_ & Hopen & _).
  unfold Lightbox.onKeydown, hasAttribute. rewrite Hr, Hopen.
  rewrite bool_decide_eq_true_2 by (eexists; reflexivity).
  repeat split.
  intros H1 H2 H3.
  destruct (String.eqb_spec key "Escape"); [contradiction|].
  destruct (String.eqb_spec key "ArrowRight"); [contradiction|].
  destruct (String.eqb_spec key "ArrowLeft"); [contradiction|].
  reflexivity.
Qed.

Lemma keys_on_open_viewer_witness :
  let opened :=
    run (Lightbox.open Sample.the_refs Sample.page 0) (Sample.initial []) in
  index (run (Lightbox.onKeydown Sample.the_refs Sample.page "ArrowLeft")
           opened) = 2
  /\ Lightbox.onKeydown Sample.the_refs Sample.page "Tab" opened
     = (opened, []).
Proof.
  cbn zeta.
  destruct (keys_on_open_viewer Sample.the_refs Sample.page 100%nat 0 "Tab"
              (Sample.initial [])) as (_ & _ & Hleft & Hother).
  - reflexivity.
  - vm_compute. discriminate.
  - split.
    + unfold run at 1. rewrite Hleft. reflexivity.
    + apply Hother; discriminate.
Defined.

(** X3. [open] hydrates only an empty snapshot: once there are items, no
    later [open] replaces them, whatever the document holds by then. *)
Theorem open_keeps_snapshot (rf : refs) (doc : document) (idx : Z)
  (s : state) :
  items s <> [] -> items (run (Lightbox.open rf doc idx) s) = items s.
Proof.
  intros Hne. destruct (root rf) as [r|] eqn:Hr.
  - assert (Hh : items (hydrated doc s) <> [])
      by (rewrite hydrated_nonempty; assumption).
    destruct (open_fields rf doc r idx s Hr Hh) as (Hit & _).
    cbn zeta in Hit. rewrite Hit, hydrated_nonempty; [reflexivity | assumption].
  - unfold run, Lightbox.open. rewrite Hr. reflexivity.
Qed.

Lemma open_keeps_snapshot_witness :
  items (run (Lightbox.open Sample.the_refs
                (Sample.page_with (Some Sample.mixed_grid)) 1)
           (Sample.initial Sample.three_items))
  = Sample.three_items.
Proof.
  apply (open_keeps_snapshot Sample.the_refs
           (Sample.page_with (Some Sample.mixed_grid)) 1
           (Sample.initial Sample.three_items)).
  discriminate.
Defined.

(** X4. Navigation is invertible on an in-range index: [prev()] after
    [next()], and [next()] after [prev()], bring the index back. *)
Theorem next_prev_inverse (rf : refs) (s : state) :
  items s <> [] -> 0 <= index s < Js.len (items s) ->
  index (run (Lightbox.prev rf) (run (Lightbox.next rf) s)) = index s
  /\ index (run (Lightbox.next rf) (run (Lightbox.prev rf) s)) = index s.
Proof.
  intros Hne Hi. pose proof (len_pos _ Hne) as Hn.
  destruct (next_index rf s Hne) as [Hnx Hnit].
  destruct (prev_index rf s Hne) as [Hpx Hpit].
  assert (Hne1 : items (run (Lightbox.next rf) s) <> [])
    by (rewrite Hnit; assumption).
  assert (Hne2 : items (run (Lightbox.prev rf) s) <> [])
    by (rewrite Hpit; assumption).
  destruct (prev_index rf _ Hne1) as [-> _].
  destruct (next_index rf _ Hne2) as [-> _].
  rewrite Hnx, Hnit, Hpx, Hpit.
  rewrite (nextIndex_mod (index s)) by lia.
  rewrite (prevIndex_mod (index s)) by lia.
  rewrite prevIndex_mod; [| apply Z.mod_pos_bound; lia | lia].
  rewrite nextIndex_mod; [| apply Z.mod_pos_bound; lia | lia].
  rewrite Zminus_mod_idemp_l, Zplus_mod_idemp_l.
  replace (index s + 1 - 1) with (index s) by lia.
  replace (index s - 1 + 1) with (index s) by lia.
  rewrite Z.mod_small by lia. auto.
Qed.

Lemma next_prev_inverse_witness :
  let s := with_index 2 (Sample.initial Sample.three_items) in
  index (run (Lightbox.prev Sample.the_refs)
           (run (Lightbox.next Sample.the_refs) s)) = 2.
Proof.
  cbn zeta.
  refine (proj1 (next_prev_inverse Sample.the_refs
                   (with_index 2 (Sample.initial Sample.three_items)) _ _)).
  - discriminate.
  - vm_compute. split; [discriminate | reflexivity].
Defined.

(** X5. An index that [open] left too large is repaired by the first
    navigation step: from any index of at least -1, [next()] lands in
    range, and from any index of at least [1 - length], [prev()] does.
    (Below these bounds the remainder of a negative number is
    negative.) *)
Theorem navigation_repairs_index (rf : refs) (s : state) :
  items s <> [] ->
  (-1 <= index s -> index_in_range (run (Lightbox.next rf) s))
  /\ (1 - Js.len (items s) <= index s ->
      index_in_range (run (Lightbox.prev rf) s)).
Proof.
  intros Hne. pose proof (len_pos _ Hne) as Hn.
  destruct (next_index rf s Hne) as [Hnx Hnit].
  destruct (prev_index rf s Hne) as [Hpx Hpit].
  unfold index_in_range. rewrite Hnx, Hnit, Hpx, Hpit.
  unfold Utils.nextIndex, Utils.prevIndex. split; intros Hi _.
  - rewrite Z.rem_mod_nonneg by lia. apply Z.mod_pos_bound. lia.
  - rewrite Z.rem_mod_nonneg by lia. apply Z.mod_pos_bound. lia.
Qed.

Lemma navigation_repairs_index_witness :
  let opened := run (Lightbox.open Sample.the_refs Sample.page 7)
                  (Sample.initial Sample.three_items) in
  index opened = 7
  /\ index_in_range (run (Lightbox.next Sample.the_refs) opened)
  /\ index (run (Lightbox.next Sample.the_refs) opened) = 2.
Proof.
  cbn zeta. split; [reflexivity|]. split; [|reflexivity].
  refine (proj1 (navigation_repairs_index Sample.the_refs
                   (run (Lightbox.open Sample.the_refs Sample.page 7)
                      (Sample.initial Sample.three_items)) _) _).
  - discriminate.
  - vm_compute. discriminate.
Defined.

(** A negative index below -1 is not repaired: [next()] from -5 on
    three items gives -1. *)
Lemma next_from_negative_index :
  index (run (Lightbox.next Sample.the_refs)
           (with_index (-5) (Sample.initial Sample.three_items))) = -1.
Proof. reflexivity. Qed.

Lemma preloadNeighbors_out (s : state) :
  (length (out Lightbox.preloadNeighbors s) <= 2)%nat
  /\ forall e, In e (out Lightbox.preloadNeighbors s) ->
       exists src, e = Preload src /\ src <> "".
Proof.
  assert (Hp : forall card s0,
             run (Lightbox.preload card) s0 = s0
             /\ (length (out (Lightbox.preload card) s0) <= 1)%nat
             /\ forall e, In e (out (Lightbox.preload card) s0) ->
                  exists src, e = Preload src /\ src <> "").
  { intros card s0. unfold Lightbox.preload, when, out, run, emit, skip.
    destruct (Lightbox.preload_source card) as [src|] eqn:E; cbn.
    - destruct (String.eqb_spec src "") as [Heq|Hneq]; cbn.
      + split; [reflexivity|]. split; [lia|]. intros e [].
      + split; [reflexivity|]. split; [lia|].
        intros e [<-|[]]. eauto.
    - split; [reflexivity|]. split; [lia|]. intros e []. }
  unfold Lightbox.preloadNeighbors, out.
  destruct (Lightbox.is_empty (items s)).
  - cbn. split; [lia|]. intros e [].
  - change (snd (?a s)) with (out a s). rewrite out_andThen.
    match goal with
    | |- context [out (Lightbox.preload ?c1) s ++ out (Lightbox.preload ?c2) ?s1] =>
        destruct (Hp c1 s) as (_ & Hl1 & He1);
        destruct (Hp c2 s1) as (_ & Hl2 & He2)
    end.
    split.
    + rewrite length_app. lia.
    + intros e He. apply in_app_or in He. destruct He; auto.
Qed.

(** X6. [preloadNeighbors] never touches the state and never announces: it
    emits at most two effects, each the preload of a non-empty URL. *)
Theorem preloadNeighbors_effects (s : state) :
  run Lightbox.preloadNeighbors s = s
  /\ (length (out Lightbox.preloadNeighbors s) <= 2)%nat
  /\ forall e, In e (out Lightbox.preloadNeighbors s) ->
       exists src, e = Preload src /\ src <> "".
Proof. split; [apply preloadNeighbors_run | apply preloadNeighbors_out]. Qed.

(** X7. When no image source resolves for the active card, rendering leaves
    every attribute alone (the image target keeps its previous [src] and
    [alt]) and still writes the caption and the counter and announces
    the position. *)
Theorem missing_source_keeps_image (rf : refs) (s : state) (card : node) :
  Js.at_index (items s) (index s) = Some card ->
  Js.truthy (Lightbox.image_source card) = false ->
  attr (run (Lightbox.updateUI rf) s) = attr s
  /\ (forall c, caption rf = Some c -> counter rf <> Some c ->
        text (run (Lightbox.updateUI rf) s) !! c
        = Some (Lightbox.caption_of card))
  /\ (forall c, counter rf = Some c ->
        text (run (Lightbox.updateUI rf) s) !! c
        = Some (Lightbox.counter_text (index s) (Js.len (items s))))
  /\ out (Lightbox.updateUI rf) s
     = [Announce Polite
          (Lightbox.announcement (index s) (Js.len (items s))
             (Lightbox.caption_of card))].
Proof.
  intros Hc Hsrc. split; [|split; [|split]].
  - unfold run, Lightbox.updateUI. rewrite Hc, Hsrc.
    unfold A11y.announce, Utils.liveRegion, when, andThen, setAttribute,
      setTextContent, update, emit, skip.
    repeat case_match; simplify_eq; reflexivity.
  - intros c Hcap Hcnt. unfold run, Lightbox.updateUI. rewrite Hc, Hcap.
    unfold A11y.announce, Utils.liveRegion, when, andThen, setAttribute,
      setTextContent, update, emit, skip.
    repeat case_match; simplify_eq; cbn;
      rewrite ?lookup_insert_ne by congruence; apply lookup_insert_eq.
  - intros c Hcnt. unfold run, Lightbox.updateUI. rewrite Hc, Hcnt.
    unfold A11y.announce, Utils.liveRegion, when, andThen, setAttribute,
      setTextContent, update, emit, skip.
    repeat case_match; simplify_eq; cbn; apply lookup_insert_eq.
  - apply updateUI_out, Hc.
Qed.

Lemma missing_source_keeps_image_witness :
  let bare := Node 50%nat "div" ∅ [] "" [] in
  let s := Sample.initial [bare] in
  attr (run (Lightbox.updateUI Sample.the_refs) s) = attr s
  /\ out (Lightbox.updateUI Sample.the_refs) s
     = [Announce Polite "Image 1 of 1"].
Proof.
  cbn zeta.
  destruct (missing_source_keeps_image Sample.the_refs
              (Sample.initial [Node 50%nat "div" ∅ [] "" []])
              (Node 50%nat "div" ∅ [] "" [])) as (Ha & _ & _ & Ho).
  - reflexivity.
  - reflexivity.
  - split; [exact Ha | exact Ho].
Defined.

(** X8. After [next()] on an in-range index the counter target reads the
    new position, one-based, over the item count. *)
Theorem counter_after_next (rf : refs) (c : elem) (s : state) :
  counter rf = Some c -> items s <> [] ->
  0 <= index s < Js.len (items s) ->
  text (run (Lightbox.next rf) s) !! c
  = Some (Js.num ((index s + 1) mod Js.len (items s) + 1)
          +:+ " / " +:+ Js.num (Js.len (items s))).
Proof.
  intros Hcnt Hne Hi. pose proof (len_pos _ Hne) as Hn.
  rewrite next_run by assumption. rewrite nextIndex_mod by lia.
  set (j := (index s + 1) mod Js.len (items s)).
  assert (Hj : 0 <= j < Js.len (items s)) by (apply Z.mod_pos_bound; lia).
  assert (Hcard : exists card,
             Js.at_index (items (with_index j s)) (index (with_index j s))
             = Some card).
  { cbn. unfold Js.at_index.
    destruct (j <? 0) eqn:E; [apply Z.ltb_lt in E; lia|].
    apply lookup_lt_is_Some. unfold Js.len in Hj. lia. }
  destruct Hcard as [card Hcard].
  unfold run, Lightbox.updateUI. rewrite Hcard, Hcnt.
  unfold A11y.announce, Utils.liveRegion, when, andThen, setAttribute,
    setTextContent, update, emit, skip.
  repeat case_match; simplify_eq; cbn; apply lookup_insert_eq.
Qed.

Lemma counter_after_next_witness :
  text (run (Lightbox.next Sample.the_refs)
          (with_index 2 (Sample.initial Sample.three_items))) !! 105%nat
  = Some "1 / 3".
Proof.
  apply (counter_after_next Sample.the_refs 105%nat
           (with_index 2 (Sample.initial Sample.three_items))).
  - reflexivity.
  - discriminate.
  - vm_compute. split; [discriminate | reflexivity].
Defined.

Lemma removeEventListener_fresh (h : nat) (c : elem) (l : list listener) :
  (forall c', ~ In (HandleKeydown h c') l) ->
  Utils.removeEventListener h (l ++ [HandleKeydown h c]) = l.
Proof.
  intros Hfresh. unfold Utils.removeEventListener.
  rewrite List.filter_app. cbn. rewrite Nat.eqb_refl. cbn.
  rewrite app_nil_r.
  induction l as [|x l IH]; [reflexivity|]. cbn.
  assert (Hx : negb (Utils.is_closure h x) = true).
  { destruct x as [|h' c']; [reflexivity|]. cbn.
    destruct (Nat.eqb_spec h h') as [<-|]; [|reflexivity].
    exfalso. apply (Hfresh c'). left. reflexivity. }
  rewrite Hx. f_equal. apply IH. intros c' Hin. apply (Hfresh c'). right. exact Hin.
Qed.

(** X9. A plain cycle leaves nothing behind: when the closure number that
    [trapFocus] is about to use is not yet among the document's key
    listeners, [open] followed by [close] gives back exactly the
    listeners there were, with no release handle stored, the root
    closed and the background's [aria-hidden] at "false". *)
Theorem open_close_cycle (rf : refs) (doc : document) (r : elem) (idx : Z)
  (s : state) :
  root rf = Some r -> items (hydrated doc s) <> [] ->
  (forall c, ~ In (HandleKeydown (closures s) c) (keydown s)) ->
  let cycled := run (Lightbox.close rf doc) (run (Lightbox.open rf doc idx) s) in
  keydown cycled = keydown s
  /\ releaseFocusFn cycled = None
  /\ is_closed r cycled
  /\ (forall m, main doc = Some m ->
        attr cycled !! (m, "aria-hidden") = Some "false").
Proof.
  intros Hr Hne Hfresh. cbn zeta.
  destruct (open_fields rf doc r idx s Hr Hne)
    as (_ & _ & _ & _ & Hrel & Hkd & _).
  cbn zeta in Hrel, Hkd.
  split; [|split; [|split]].
  - unfold run at 1. rewrite (close_closed_form rf doc r) by assumption. cbn.
    unfold closed_keydown. rewrite Hrel, Hkd. cbn.
    apply removeEventListener_fresh, Hfresh.
  - unfold run at 1. rewrite (close_closed_form rf doc r) by assumption.
    reflexivity.
  - apply close_is_closed, Hr.
  - intros m Hm. unfold run at 1.
    rewrite (close_closed_form rf doc r) by assumption. cbn.
    rewrite closed_attrs_lookup. cbn. rewrite Hm.
    destruct (decide _) as [_|Hn]; [reflexivity|]. exfalso. apply Hn. auto.
Qed.

Lemma open_close_cycle_witness :
  keydown (run (Lightbox.close Sample.the_refs Sample.page)
             (run (Lightbox.open Sample.the_refs Sample.page 1)
                (Sample.initial [])))
  = [OnKeydown].
Proof.
  refine (proj1 (open_close_cycle Sample.the_refs Sample.page 100%nat 1
                   (Sample.initial []) _ _ _)).
  - reflexivity.
  - vm_compute. discriminate.
  - intros c [H|[]]. discriminate.
Defined.

(** X10. A successful [open] leaves the Open state: the root's hidden marker
    removed, its open and aria-modal markers set, the dialog's role set
    and the background's [aria-hidden] at "true". *)
Theorem open_sets_open_markers (rf : refs) (doc : document) (r : elem)
  (idx : Z) (s : state) :
  root rf = Some r -> items (hydrated doc s) <> [] ->
  let opened := run (Lightbox.open rf doc idx) s in
  is_open r opened
  /\ (forall d, dialog rf = Some d ->
        attr opened !! (d, "role") = Some "dialog")
  /\ (forall m, main doc = Some m ->
        attr opened !! (m, "aria-hidden") = Some "true").
Proof.
  intros Hr Hne. cbn zeta.
  split; [apply (open_is_open rf doc r idx s Hr Hne)|].
  unfold Lightbox.open, run at 1 2.
  rewrite Hr.
  change (fst (?a s)) with (run a s).
  rewrite run_andThen, hydrate_step.
  generalize dependent (hydrated doc s). intros s1 Hne.
  unfold run at 1 2. rewrite (is_empty_false _ Hne).
  change (fst (?a s1)) with (run a s1).
  rewrite !run_andThen, preloadNeighbors_run.
  match goal with
  | |- context [run (Lightbox.updateUI rf) ?u] =>
      pose proof (fun d => updateUI_attr_other rf u d "role") as H1;
      rewrite (updateUI_run rf u)
  end.
  match goal with
  | |- context [text ?u] => generalize (text u)
  end.
  intros T.
  unfold Lightbox.setAriaHiddenForBackground.
  split.
  - intros d Hd. specialize (H1 d ltac:(discriminate) ltac:(discriminate)).
    rewrite Hd in *. destruct (main doc); cbn in *;
      rewrite ?lookup_insert_ne by congruence; rewrite H1;
      apply lookup_insert_eq.
  - intros m Hm. rewrite Hm. destruct (dialog rf); cbn; apply lookup_insert_eq.
Qed.

Lemma open_sets_open_markers_witness :
  is_open 100%nat
    (run (Lightbox.open Sample.the_refs Sample.page 0) (Sample.initial [])).
Proof.
  refine (proj1 (open_sets_open_markers Sample.the_refs Sample.page 100%nat 0
                   (Sample.initial []) _ _)).
  - reflexivity.
  - vm_compute. discriminate.
Defined.

Lemma updateUI_out_of_range (rf : refs) (s : state) :
  Js.at_index (items s) (index s) = None ->
  Lightbox.updateUI rf s = (s, []).
Proof. intros H. unfold Lightbox.updateUI. rewrite H. reflexivity. Qed.

Lemma at_index_out_of_range {A} (l : list A) (i : Z) :
  i < 0 \/ Js.len l <= i -> Js.at_index l i = None.
Proof.
  intros H. unfold Js.at_index, Js.len in *.
  destruct (i <? 0) eqn:E; [reflexivity|]. apply Z.ltb_ge in E.
  apply lookup_ge_None. lia.
Qed.

(** X11. [open] with an index outside the snapshot still opens the viewer
    but renders nothing: no text target is written, the image target
    keeps its source, and the only announcement is "Image viewer
    opened" (no "Image i of n"). *)
Theorem out_of_range_open_renders_nothing (rf : refs) (doc : document)
  (r : elem) (idx : Z) (s : state) :
  root rf = Some r -> items (hydrated doc s) <> [] ->
  idx < 0 \/ Js.len (items (hydrated doc s)) <= idx ->
  let opened := run (Lightbox.open rf doc idx) s in
  is_open r opened
  /\ text opened = text s
  /\ (forall i, attr opened !! (i, "src") = attr s !! (i, "src"))
  /\ (forall p m, In (Announce p m) (out (Lightbox.open rf doc idx) s) ->
        m = "Image viewer opened").
Proof.
  intros Hr Hne Hidx. cbn zeta.
  split; [apply (open_is_open rf doc r idx s Hr Hne)|].
  assert (Hh : text (hydrated doc s) = text s
               /\ attr (hydrated doc s) = attr s).
  { unfold hydrated. destruct (Lightbox.is_empty (items s)); cbn; auto. }
  destruct Hh as (<- & <-).
  unfold Lightbox.open, run at 1 2, out.
  rewrite Hr.
  change (fst (?a s)) with (run a s). change (snd (?a s)) with (out a s).
  rewrite out_andThen, run_andThen, hydrate_step.
  assert (Ho : out (fun s0 => when (Lightbox.is_empty (items s0))
                                (Lightbox.hydrateItems doc) s0) s = []).
  { unfold out, when. destruct (Lightbox.is_empty (items s)); reflexivity. }
  rewrite Ho. cbn [app].
  generalize dependent (hydrated doc s). intros s1 Hne Hidx.
  unfold run at 1 2, out. rewrite (is_empty_false _ Hne).
  change (fst (?a s1)) with (run a s1). change (snd (?a s1)) with (out a s1).
  rewrite !out_andThen, !run_andThen, preloadNeighbors_run.
  match goal with
  | |- context [run (Lightbox.updateUI rf) ?u] =>
      assert (Hu : Lightbox.updateUI rf u = (u, []));
      [| assert (Hru : run (Lightbox.updateUI rf) u = u)
           by (unfold run at 1; rewrite Hu; reflexivity);
         assert (Hou : out (Lightbox.updateUI rf) u = [])
           by (unfold out at 1; rewrite Hu; reflexivity);
         destruct (preloadNeighbors_out u) as (_ & Hpre) ]
  end.
  { apply updateUI_out_of_range.
    destruct (dialog rf); cbn; apply at_index_out_of_range; exact Hidx. }
  rewrite !Hru, Hou.
  unfold Lightbox.setAriaHiddenForBackground.
  split; [|split].
  - destruct (dialog rf), (main doc); reflexivity.
  - intros i. destruct (dialog rf), (main doc); cbn;
      rewrite ?lookup_insert_ne by congruence;
      rewrite ?lookup_delete_ne by congruence; reflexivity.
  - intros p m Hin.
    repeat (apply in_app_or in Hin; destruct Hin as [Hin|Hin]);
      try (destruct (Hpre _ Hin) as (src & Hsrc & _); discriminate);
      destruct (dialog rf), (main doc); cbn in Hin;
      try contradiction; destruct Hin as [Hin|[]]; congruence.
Qed.

Lemma out_of_range_open_renders_nothing_witness :
  out (Lightbox.open Sample.the_refs Sample.page 7)
    (Sample.initial Sample.three_items)
  = [Preload "/full/bird.jpg"; Preload "/full/cat.jpg";
     Announce Polite "Image viewer opened"]
  /\ text (run (Lightbox.open Sample.the_refs Sample.page 7)
             (Sample.initial Sample.three_items)) = ∅.
Proof.
  split; [reflexivity|].
  refine (proj1 (proj2 (out_of_range_open_renders_nothing Sample.the_refs
                          Sample.page 100%nat 7
                          (Sample.initial Sample.three_items) _ _ _))).
  - reflexivity.
  - vm_compute. discriminate.
  - right. vm_compute. discriminate.
Defined.

(** ** gallery.js: the open request *)

Lemma indexOf_from_spec (l : list node) (card : node) (k : Z) :
  (Gallery.indexOf_from k l card = -1
   /\ forall x, In x l -> same_node x card = false)
  \/ (exists (n : nat) (x : node),
        l !! n = Some x /\ same_node x card = true
        /\ (forall (m : nat) (y : node),
              (m < n)%nat -> l !! m = Some y -> same_node y card = false)
        /\ Gallery.indexOf_from k l card = k + Z.of_nat n).
Proof.
  revert k. induction l as [|y l IH]; intros k; cbn.
  - left. split; [reflexivity|]. intros x [].
  - destruct (same_node y card) eqn:E.
    + right. exists 0%nat, y. repeat split; try reflexivity; try assumption.
      * intros m z Hm. lia.
      * lia.
    + destruct (IH (k + 1)) as [[Hr Hall] | (n & x & Hx & Hs & Hbefore & Hr)].
      * left. split; [exact Hr|]. intros x [<-|Hin]; auto.
      * right. exists (S n), x. repeat split; try assumption.
        -- intros [|m] z Hm Hz; cbn in Hz.
           ++ congruence.
           ++ apply (Hbefore m z); [lia | exact Hz].
        -- rewrite Hr. lia.
Qed.

(** X12. The index the gallery puts in an open request is the position of
    the first item that is the activated card, and lies inside the
    gallery's own item list; no request is made exactly when the card
    is not among the items. *)
Theorem open_request_first_match (l : list node) (card : node) :
  match Gallery.open_request l card with
  | Some i =>
      0 <= i < Js.len l
      /\ (exists x, Js.at_index l i = Some x /\ same_node x card = true)
      /\ (forall j y, 0 <= j < i -> Js.at_index l j = Some y ->
                      same_node y card = false)
  | None => forall x, In x l -> same_node x card = false
  end.
Proof.
  unfold Gallery.open_request, Gallery.indexOf.
  destruct (indexOf_from_spec l card 0)
    as [[Hr Hall] | (n & x & Hx & Hs & Hbefore & Hr)]; rewrite Hr.
  - cbn. exact Hall.
  - replace (0 + Z.of_nat n) with (Z.of_nat n) by lia.
    destruct (0 <=? Z.of_nat n) eqn:E; [|apply Z.leb_gt in E; lia].
    assert (Hat : forall (m : nat), Js.at_index l (Z.of_nat m) = l !! m).
    { intros m. unfold Js.at_index.
      destruct (Z.of_nat m <? 0) eqn:E1; [apply Z.ltb_lt in E1; lia|].
      rewrite Nat2Z.id. reflexivity. }
    split; [|split].
    + split; [lia|]. apply lookup_lt_Some in Hx. unfold Js.len. lia.
    + exists x. rewrite Hat. auto.
    + intros j y Hj Hy. replace j with (Z.of_nat (Z.to_nat j)) in Hy by lia.
      rewrite Hat in Hy. apply (Hbefore (Z.to_nat j) y); [lia | exact Hy].
Qed.

(** X13. On a grid where every element with the [gallery__item] class also
    carries [data-gallery-item], the index of a gallery open request
    selects that same card in the snapshot the lightbox hydrates. *)
Theorem aligned_markup_request_selects_card (doc : document) (g card : node)
  (i : Z) (s : state) :
  grid doc = Some g ->
  (forall n, In n (descendants g) ->
             has_class "gallery__item" n = true ->
             has_attr "data-gallery-item" n = true) ->
  Gallery.open_request (Gallery.hydrateItems doc []) card = Some i ->
  exists x,
    Js.at_index (items (run (Lightbox.hydrateItems doc) s)) i = Some x
    /\ same_node x card = true.
Proof.
  intros Hg Hal Hreq. unfold Gallery.hydrateItems in Hreq.
  unfold run, Lightbox.hydrateItems, update. rewrite Hg in *. cbn.
  rewrite (hydration_agrees g Hal).
  apply open_request_selects, Hreq.
Qed.

Lemma aligned_markup_request_selects_card_witness :
  exists x,
    Js.at_index
      (items (run (Lightbox.hydrateItems Sample.page) (Sample.initial []))) 2
    = Some x
    /\ same_node x Sample.bird = true.
Proof.
  apply (aligned_markup_request_selects_card Sample.page Sample.gallery_grid
           Sample.bird 2 (Sample.initial [])).
  - reflexivity.
  - intros n Hin. cbn in Hin.
    repeat (destruct Hin as [<-|Hin]; [vm_compute; auto|]).
    contradiction.
  - reflexivity.
Defined.

(** ** utils.js: the focus trap's key handler *)

Section FocusTrapProperties.
Variable doc : document.
Variable contains : elem -> elem -> bool.

Lemma focus_run (el : elem) (s : state) :
  can_focus doc el = true ->
  run (Utils.focus doc el) s = with_activeElement (Some el) s.
Proof. intros H. unfold run, Utils.focus, update. cbn. rewrite H. reflexivity. Qed.

(** X14. Tab on the last tabbable element moves the focus to the first, and
    Shift+Tab on the first moves it to the last; so does either key
    when the focus has left the container.  With the focus on any other
    element of the container the handler leaves the key to the
    browser. *)
Theorem trap_wraps_at_edges (c first : elem) (rest : list elem)
  (shift : bool) (s : state) :
  tabbables doc c = first :: rest ->
  can_focus doc first = true ->
  can_focus doc (List.last rest first) = true ->
  let target := if shift then List.last rest first else first in
  let edge := if shift then first else List.last rest first in
  let e := FocusTrap.mkKeyEvent "Tab" shift in
  (activeElement s = Some edge \/ FocusTrap.escaped contains c s = true ->
   FocusTrap.handleKeydown doc contains c e s
   = (with_activeElement (Some target) s, true))
  /\ (forall a, activeElement s = Some a -> a <> edge ->
                contains c a = true ->
                FocusTrap.handleKeydown doc contains c e s = (s, false)).
Proof.
  intros Ht Hf Hl. cbn zeta. unfold FocusTrap.handleKeydown.
  cbn [FocusTrap.key FocusTrap.shiftKey]. rewrite String.eqb_refl.
  cbn [negb]. rewrite Ht. split.
  - intros Hcond.
    assert (Hb : forall el, (activeElement s = Some el
                             \/ FocusTrap.escaped contains c s = true) ->
                 FocusTrap.is_active el s || FocusTrap.escaped contains c s
                 = true).
    { intros el [Ha|He].
      - unfold FocusTrap.is_active. rewrite bool_decide_eq_true_2 by assumption.
        reflexivity.
      - rewrite He. apply orb_true_r. }
    destruct shift; rewrite (Hb _ Hcond), focus_run by assumption; reflexivity.
  - intros a Ha Hne Hin.
    assert (Hb : FocusTrap.is_active (if shift then first
                                      else List.last rest first) s
                 || FocusTrap.escaped contains c s = false).
    { unfold FocusTrap.is_active, FocusTrap.escaped. rewrite Ha, Hin.
      rewrite bool_decide_eq_false_2 by congruence. reflexivity. }
    destruct shift; rewrite Hb; reflexivity.
Qed.

(** X15. The handler of a trap that was left registered does no harm next
    to its twin: running [handleKeydown] twice for the same key event
    leaves the state one run leaves, as long as the first and last
    tabbable elements are inside the container. *)
Theorem duplicate_trap_handler_harmless (c : elem) (e : FocusTrap.key_event)
  (s : state) :
  (forall first rest, tabbables doc c = first :: rest ->
     contains c first = true /\ contains c (List.last rest first) = true) ->
  let once := fst (FocusTrap.handleKeydown doc contains c e s) in
  fst (FocusTrap.handleKeydown doc contains c e once) = once.
Proof.
  intros Hin. cbn zeta. unfold FocusTrap.handleKeydown.
  destruct (negb (String.eqb (FocusTrap.key e) "Tab")); [reflexivity|].
  destruct (tabbables doc c) as [|first rest] eqn:Ht; [reflexivity|].
  destruct (Hin first rest eq_refl) as [Hcf Hcl].
  assert (Hstep : forall target edge,
            contains c target = true ->
            let s1 := run (Utils.focus doc target) s in
            fst (if FocusTrap.is_active edge s1
                    || FocusTrap.escaped contains c s1
                 then (run (Utils.focus doc target) s1, true)
                 else (s1, false)) = s1).
  { intros target edge Hc. cbn zeta.
    unfold run, Utils.focus, update. cbn.
    destruct (can_focus doc target) eqn:Hf.
    - unfold FocusTrap.is_active, FocusTrap.escaped. cbn. rewrite Hc. cbn.
      rewrite orb_false_r. destruct (bool_decide _); reflexivity.
    - destruct (_ || _); reflexivity. }
  destruct (FocusTrap.shiftKey e).
  - destruct (FocusTrap.is_active first s || FocusTrap.escaped contains c s)
      eqn:E; cbn [fst].
    + apply (Hstep (List.last rest first) first Hcl).
    + rewrite E. reflexivity.
  - destruct (FocusTrap.is_active (List.last rest first) s
              || FocusTrap.escaped contains c s) eqn:E; cbn [fst].
    + apply (Hstep first (List.last rest first) Hcf).
    + rewrite E. reflexivity.
Qed.

End FocusTrapProperties.

Lemma trap_wraps_at_edges_witness :
  FocusTrap.handleKeydown Sample.page (fun _ _ => true) 101%nat
    (FocusTrap.mkKeyEvent "Tab" false)
    (with_activeElement (Some 107%nat) (Sample.initial []))
  = (with_activeElement (Some 102%nat) (Sample.initial []), true).
Proof.
  refine (proj1 (trap_wraps_at_edges Sample.page (fun _ _ => true) 101%nat
                   102%nat [106; 107]%nat false
                   (with_activeElement (Some 107%nat) (Sample.initial []))
                   _ _ _) _).
  - reflexivity.
  - reflexivity.
  - reflexivity.
  - left. reflexivity.
Defined.

Lemma duplicate_trap_handler_harmless_witness :
  let e := FocusTrap.mkKeyEvent "Tab" false in
  let s := with_activeElement (Some 107%nat) (Sample.initial []) in
  let once :=
    fst (FocusTrap.handleKeydown Sample.page (fun _ _ => true) 101%nat e s) in
  activeElement once = Some 102%nat
  /\ fst (FocusTrap.handleKeydown Sample.page (fun _ _ => true) 101%nat e once)
     = once.
Proof.
  cbn zeta. split; [reflexivity|].
  apply (duplicate_trap_handler_harmless Sample.page (fun _ _ => true)
           101%nat (FocusTrap.mkKeyEvent "Tab" false)
           (with_activeElement (Some 107%nat) (Sample.initial []))).
  intros first rest _. split; reflexivity.
Defined.

(** ** utils.js: pressed state *)

Lemma toggleAttribute_lookup (el : elem) (k : string) (force : bool)
  (s : state) :
  is_Some (attr (run (Widgets.toggleAttribute el k force) s) !! (el, k))
  <-> force = true.
Proof.
  unfold run, Widgets.toggleAttribute, hasAttribute, setAttribute,
    removeAttribute, update, skip.
  destruct force; cbn.
  - destruct (bool_decide _) eqn:E; cbn.
    + apply bool_decide_eq_true_1 in E. tauto.
    + rewrite lookup_insert_eq. split; [reflexivity | eauto].
  - rewrite lookup_delete_eq. split; [intros [v Hv]; discriminate | discriminate].
Qed.

Lemma toggleAttribute_other (el : elem) (k : string) (force : bool)
  (s : state) (key : elem * string) :
  key <> (el, k) ->
  attr (run (Widgets.toggleAttribute el k force) s) !! key = attr s !! key.
Proof.
  intros Hne.
  unfold run, Widgets.toggleAttribute, hasAttribute, setAttribute,
    removeAttribute, update, skip.
  destruct force; cbn.
  - destruct (bool_decide _); cbn; [reflexivity|].
    apply lookup_insert_ne. congruence.
  - apply lookup_delete_ne. congruence.
Qed.

(** X16. [togglePressed] keeps the two markers of a button in step: after
    any call [aria-pressed] spells the returned value and [data-active]
    is present exactly when that value is true.  Called without an
    explicit state it flips: the second of two such calls returns the
    negation of the first. *)
Theorem togglePressed_in_step (el : elem) (pressed : option bool)
  (s : state) :
  let '(next, s1) := Widgets.togglePressed el pressed s in
  let '(again, s2) := Widgets.togglePressed el None s1 in
  attr s1 !! (el, "aria-pressed") = Some (Widgets.bool_text next)
  /\ (is_Some (attr s1 !! (el, "data-active")) <-> next = true)
  /\ again = negb next
  /\ attr s2 !! (el, "aria-pressed") = Some (Widgets.bool_text (negb next)).
Proof.
  unfold Widgets.togglePressed. rewrite !run_andThen.
  set (next := match pressed with
               | Some b => b
               | None => negb (bool_decide
                                 (attr s !! (el, "aria-pressed") = Some "true"))
               end).
  assert (H1 : attr (run (Widgets.toggleAttribute el "data-active" next)
                       (run (setAttribute el "aria-pressed"
                               (Widgets.bool_text next)) s))
               !! (el, "aria-pressed") = Some (Widgets.bool_text next)).
  { rewrite toggleAttribute_other by congruence. cbn. apply lookup_insert_eq. }
  split; [exact H1|]. split; [apply toggleAttribute_lookup|].
  rewrite H1.
  assert (Hflip : negb (bool_decide (Some (Widgets.bool_text next)
                                     = Some "true")) = negb next).
  { destruct next; reflexivity. }
  rewrite Hflip. split; [reflexivity|].
  rewrite toggleAttribute_other by congruence. cbn. apply lookup_insert_eq.
Qed.

(** ** utils.js: the live region *)

Lemma liveRegion_node (m : string) (p : politeness) (l : Widgets.live_region) :
  Widgets.liveNode (Widgets.liveRegion m p l) = Some (p, "")
  /\ Widgets.pending (Widgets.liveRegion m p l) = Widgets.pending l ++ [m].
Proof.
  unfold Widgets.liveRegion. cbn. split; [|reflexivity].
  destruct (Widgets.liveNode l) as [[a t]|]; cbn;
    [destruct p, a; reflexivity | destruct p; reflexivity].
Qed.

Lemma handle_effects_app (es1 es2 : list effect) (l : Widgets.live_region) :
  Widgets.handle_effects (es1 ++ es2) l
  = Widgets.handle_effects es2 (Widgets.handle_effects es1 l).
Proof. unfold Widgets.handle_effects. apply fold_left_app. Qed.

Lemma timers_fire_last (n : nat) (a : politeness) (t m : string)
  (q : list string) :
  length q = n ->
  Nat.iter (S n) Widgets.timer_fires (Widgets.mkLive (Some (a, t)) (q ++ [m]))
  = Widgets.mkLive (Some (a, m)) [].
Proof.
  revert t q. induction n as [|n IH]; intros t q Hq.
  - destruct q; [reflexivity | discriminate].
  - destruct q as [|x q]; [discriminate|]. injection Hq as Hq.
    rewrite Nat.iter_succ_r. cbn [Widgets.timer_fires Widgets.pending app].
    cbn [Widgets.liveNode]. apply IH, Hq.
Qed.

Lemma timers_after_announce (p : politeness) (m : string)
  (l : Widgets.live_region) :
  Widgets.all_timers_fire (Widgets.liveRegion m p l)
  = Widgets.mkLive (Some (p, m)) [].
Proof.
  destruct (liveRegion_node m p l) as [Hn Hp].
  unfold Widgets.all_timers_fire. rewrite Hp.
  destruct (Widgets.liveRegion m p l) as [node pend]. cbn in Hn, Hp. subst.
  rewrite length_app. cbn [length].
  replace (length (Widgets.pending l) + 1)%nat
    with (S (length (Widgets.pending l))) by lia.
  apply timers_fire_last. reflexivity.
Qed.

Lemma last_announcement_wins (es : list effect) (p : politeness) (m : string)
  (l : Widgets.live_region) :
  Widgets.all_timers_fire (Widgets.handle_effects (es ++ [Announce p m]) l)
  = Widgets.mkLive (Some (p, m)) [].
Proof.
  rewrite handle_effects_app.
  change (Widgets.handle_effects [Announce p m] ?x)
    with (Widgets.liveRegion m p x).
  apply timers_after_announce.
Qed.

(** X17. Stale timers never win: whatever the live region held and whatever
    timers were still pending, once [liveRegion] was called and every
    pending timer has run, the region shows that last message, with its
    politeness. *)
Theorem live_region_shows_last_message (p : politeness) (m : string)
  (l : Widgets.live_region) :
  Widgets.all_timers_fire (Widgets.liveRegion m p l)
  = Widgets.mkLive (Some (p, m)) [].
Proof. apply timers_after_announce. Qed.

Lemma open_out_last (rf : refs) (doc : document) (r : elem) (idx : Z)
  (s : state) :
  root rf = Some r -> items (hydrated doc s) <> [] ->
  exists es,
    out (Lightbox.open rf doc idx) s
    = es ++ [Announce Polite "Image viewer opened"].
Proof.
  intros Hr Hne. unfold Lightbox.open, out. rewrite Hr.
  change (snd (?a s)) with (out a s).
  rewrite out_andThen, hydrate_step.
  generalize dependent (hydrated doc s). intros s1 Hne.
  unfold out at 2. rewrite (is_empty_false _ Hne).
  change (snd (?a s1)) with (out a s1).
  rewrite !out_andThen. rewrite !app_assoc. eexists. reflexivity.
Qed.

(** X18. The position announced while opening is superseded at once: after
    a successful [open], when the live region's timers have run, it
    reads "Image viewer opened", not "Image i of n". *)
Theorem open_final_announcement (rf : refs) (doc : document) (r : elem)
  (idx : Z) (s : state) (l : Widgets.live_region) :
  root rf = Some r -> items (hydrated doc s) <> [] ->
  Widgets.all_timers_fire
    (Widgets.handle_effects (out (Lightbox.open rf doc idx) s) l)
  = Widgets.mkLive (Some (Polite, "Image viewer opened")) [].
Proof.
  intros Hr Hne. destruct (open_out_last rf doc r idx s Hr Hne) as [es ->].
  apply last_announcement_wins.
Qed.

Lemma open_final_announcement_witness :
  out (Lightbox.open Sample.the_refs Sample.page 0) (Sample.initial [])
  = [Announce Polite "Image 1 of 3, Cat on a bench";
     Preload "/full/dog.jpg"; Preload "/full/bird.jpg";
     Announce Polite "Image viewer opened"]
  /\ Widgets.all_timers_fire
       (Widgets.handle_effects
          (out (Lightbox.open Sample.the_refs Sample.page 0)
             (Sample.initial []))
          (Widgets.mkLive None []))
     = Widgets.mkLive (Some (Polite, "Image viewer opened")) [].
Proof.
  split; [reflexivity|].
  apply (open_final_announcement Sample.the_refs Sample.page 100%nat 0
           (Sample.initial []) (Widgets.mkLive None [])).
  - reflexivity.
  - vm_compute. discriminate.
Defined.

(** ** utils.js: debounce and throttle *)

Section TimingProperties.
Context {A : Type}.

Lemma last_cons_default (b d : A) (rest : list A) :
  List.last (b :: rest) d = List.last rest b.
Proof.
  revert b d. induction rest as [|c rest IH]; intros b d; [reflexivity|].
  change (List.last (b :: c :: rest) d) with (List.last (c :: rest) d).
  rewrite IH. symmetry. apply IH.
Qed.

Lemma d_call_pending (immediate : bool) (a : A) (d : Timing.debounced) :
  (Timing.d_timers d = []
   \/ exists i b, Timing.t d = Some i /\ Timing.d_timers d = [(i, b)]) ->
  Timing.d_call immediate a d
  = (Timing.mkDebounced (Some (Timing.d_fresh d)) [(Timing.d_fresh d, a)]
       (S (Timing.d_fresh d)),
     if immediate && negb (bool_decide (is_Some (Timing.t d)))
     then [a] else []).
Proof.
  intros Hinv. unfold Timing.d_call. f_equal. f_equal.
  destruct Hinv as [-> | (i & b & -> & ->)].
  - destruct (Timing.t d); reflexivity.
  - cbn. rewrite Nat.eqb_refl. reflexivity.
Qed.

Lemma d_calls_pending (immediate : bool) (first : A) (rest : list A)
  (d : Timing.debounced) :
  (Timing.d_timers d = []
   \/ exists i b, Timing.t d = Some i /\ Timing.d_timers d = [(i, b)]) ->
  exists i,
    Timing.d_calls immediate (first :: rest) d
    = (Timing.mkDebounced (Some i) [(i, List.last rest first)] (S i),
       if immediate && negb (bool_decide (is_Some (Timing.t d)))
       then [first] else []).
Proof.
  revert first d. induction rest as [|b rest IH]; intros first d Hinv.
  - exists (Timing.d_fresh d). cbn [Timing.d_calls].
    rewrite (d_call_pending immediate first d Hinv). cbn.
    rewrite app_nil_r. reflexivity.
  - cbn [Timing.d_calls] in *.
    rewrite (d_call_pending immediate first d Hinv).
    destruct (IH b (Timing.mkDebounced (Some (Timing.d_fresh d))
                      [(Timing.d_fresh d, first)] (S (Timing.d_fresh d))))
      as [i Hi].
    { right. eauto. }
    exists i. cbn [Timing.d_calls Timing.t] in Hi.
    rewrite bool_decide_eq_true_2 in Hi by (eexists; reflexivity).
    cbn [negb] in Hi. rewrite andb_false_r in Hi.
    rewrite Hi, app_nil_r, last_cons_default. reflexivity.
Qed.

(** X19. A burst of calls of a debounced function, started with no timer
    pending, leaves exactly one timer, carrying the arguments of the
    last call.  In trailing mode [fn] is not invoked during the burst
    and is invoked once, with the last arguments, when that timer comes
    due; in immediate mode [fn] is invoked once, at the first call and
    with its arguments, and the timer only re-arms the wrapper. *)
Theorem debounce_burst (immediate : bool) (first : A) (rest : list A)
  (d : Timing.debounced) :
  Timing.t d = None -> Timing.d_timers d = [] ->
  exists i,
    Timing.d_calls immediate (first :: rest) d
    = (Timing.mkDebounced (Some i) [(i, List.last rest first)] (S i),
       if immediate then [first] else [])
    /\ Timing.d_fire immediate i
         (Timing.mkDebounced (Some i) [(i, List.last rest first)] (S i))
       = (Timing.mkDebounced None [] (S i),
          if immediate then [] else [List.last rest first]).
Proof.
  intros Ht Hl.
  destruct (d_calls_pending immediate first rest d (or_introl Hl)) as [i Hi].
  exists i. rewrite Hi, Ht. split.
  - destruct immediate; reflexivity.
  - unfold Timing.d_fire, Timing.find_timer. cbn. rewrite ?Nat.eqb_refl. cbn.
    rewrite ?Nat.eqb_refl. reflexivity.
Qed.

Lemma t_calls_dropped (ms : Z) (calls : list (Z * A)) (th : Timing.throttled)
  (i : nat) :
  Timing.timer th = Some i ->
  (forall n a, In (n, a) calls -> n - Timing.last th < ms) ->
  Timing.t_calls ms calls th = (th, []).
Proof.
  intros Ht. induction calls as [|[n a] calls IH]; intros Hw; [reflexivity|].
  cbn [Timing.t_calls]. unfold Timing.t_call.
  assert (Hn : n - Timing.last th < ms) by (apply (Hw n a); left; reflexivity).
  destruct (ms - (n - Timing.last th) <=? 0) eqn:E;
    [apply Z.leb_le in E; lia|].
  rewrite Ht. rewrite IH; [reflexivity|].
  intros n' a' Hin. apply (Hw n' a'). right. exact Hin.
Qed.

(** X20. A throttled function called when the window has passed runs at
    once.  The calls that follow inside the window do not run [fn]:
    the first of them schedules the one timer, for the rest of the
    window and with its own arguments, and the later ones are dropped.
    When that timer comes due [fn] runs once, with the arguments of
    that first suppressed call, and a new window starts. *)
Theorem throttle_burst (ms now0 n1 : Z) (a0 a1 : A) (later : list (Z * A))
  (th : Timing.throttled) :
  Timing.timer th = None -> Timing.t_timers th = [] ->
  ms <= now0 - Timing.last th ->
  n1 - now0 < ms ->
  (forall n a, In (n, a) later -> n - now0 < ms) ->
  let i := Timing.t_fresh th in
  let waiting :=
    Timing.mkThrottled now0 (Some i) [(i, (ms - (n1 - now0), a1))] (S i) in
  Timing.t_calls ms ((now0, a0) :: (n1, a1) :: later) th = (waiting, [a0])
  /\ forall due,
       Timing.t_fire due i waiting
       = (Timing.mkThrottled due None [] (S i), [a1]).
Proof.
  intros Ht Hl Hlead Hn1 Hlater. cbn zeta. split.
  - cbn [Timing.t_calls]. unfold Timing.t_call at 1.
    destruct (ms - (now0 - Timing.last th) <=? 0) eqn:E;
      [|apply Z.leb_gt in E; lia].
    unfold Timing.t_call at 1. cbn [Timing.last Timing.timer].
    destruct (ms - (n1 - now0) <=? 0) eqn:E1; [apply Z.leb_le in E1; lia|].
    rewrite Ht, Hl. cbn [app Timing.t_fresh Timing.t_timers].
    rewrite (t_calls_dropped ms later _ (Timing.t_fresh th));
      [reflexivity | reflexivity | exact Hlater].
  - intros due. unfold Timing.t_fire, Timing.find_timer. cbn.
    rewrite ?Nat.eqb_refl. cbn. rewrite ?Nat.eqb_refl. reflexivity.
Qed.

End TimingProperties.

Lemma debounce_burst_witness :
  Timing.d_calls false ["a"; "b"; "c"] (Timing.mkDebounced None [] 1)
  = (Timing.mkDebounced (Some 3%nat) [(3%nat, "c")] 4, [])
  /\ Timing.d_fire false 3 (Timing.mkDebounced (Some 3%nat) [(3%nat, "c")] 4)
     = (Timing.mkDebounced None [] 4, ["c"]).
Proof.
  destruct (debounce_burst false "a" ["b"; "c"]
              (Timing.mkDebounced None [] 1) eq_refl eq_refl)
    as (i & Hcalls & Hfire).
  assert (Hi : i = 3%nat).
  { vm_compute in Hcalls. congruence. }
  subst i. split; [exact Hcalls | exact Hfire].
Defined.

Lemma throttle_burst_witness :
  Timing.t_calls 200 [(1000, "a"); (1050, "b"); (1100, "c")]
    (Timing.mkThrottled 0 None [] 1)
  = (Timing.mkThrottled 1000 (Some 1%nat) [(1%nat, (150, "b"))] 2, ["a"]).
Proof.
  refine (proj1 (throttle_burst 200 1000 1050 "a" "b" [(1100, "c")]
                   (Timing.mkThrottled 0 None [] 1) _ _ _ _ _)).
  - reflexivity.
  - reflexivity.
  - vm_compute. discriminate.
  - reflexivity.
  - intros n a [H|[]]. injection H as <- <-. reflexivity.
Defined.

(** ** a11y.js: the focus-visible helper *)

(** X21. The helper class and the keyboard flag move together: from a start
    where they agree (the class absent, the flag false), after any
    sequence of key, mouse and focus events the class is present
    exactly when the flag is set, and so a focus event never changes
    anything. *)
Theorem focus_visible_in_step (es : list FocusVisible.fv_event)
  (s : FocusVisible.fv_state) :
  FocusVisible.has_helper_class s = FocusVisible.hadKeyboardEvent s ->
  let s' := FocusVisible.handle_all es s in
  FocusVisible.has_helper_class s' = FocusVisible.hadKeyboardEvent s'
  /\ FocusVisible.handle FocusVisible.Focus s' = s'.
Proof.
  intros Hs. cbn zeta.
  assert (Hinv : FocusVisible.has_helper_class (FocusVisible.handle_all es s)
                 = FocusVisible.hadKeyboardEvent
                     (FocusVisible.handle_all es s)).
  { revert s Hs. unfold FocusVisible.handle_all.
    induction es as [|e es IH]; intros s Hs; [exact Hs|].
    cbn [fold_left]. apply IH.
    destruct e as [m a c| |]; cbn.
    - destruct (m || a || c); [exact Hs | reflexivity].
    - reflexivity.
    - destruct (FocusVisible.hadKeyboardEvent s) eqn:E; cbn;
        [congruence | reflexivity]. }
  split; [exact Hinv|].
  destruct (FocusVisible.handle_all es s) as [k c]. cbn in *. subst c.
  destruct k; reflexivity.
Qed.

Lemma focus_visible_in_step_witness :
  FocusVisible.handle_all
    [FocusVisible.Keydown false false false; FocusVisible.Focus;
     FocusVisible.Keydown true false false]
    (FocusVisible.mkFv false false)
  = FocusVisible.mkFv true true
  /\ FocusVisible.handle FocusVisible.Focus (FocusVisible.mkFv true true)
     = FocusVisible.mkFv true true.
Proof.
  split; [reflexivity|].
  exact (proj2 (focus_visible_in_step
                  [FocusVisible.Keydown false false false; FocusVisible.Focus;
                   FocusVisible.Keydown true false false]
                  (FocusVisible.mkFv false false) eq_refl)).
Defined.

(** ** gallery.js: filters *)

Section FilterProperties.
Variable toLowerCase : string -> string.
Variable grefs : GalleryFilters.gallery_refs.

Lemma split_go_no_separator (sep : ascii -> bool) (in_run : bool)
  (acc str : string) :
  (forall c, In c (String.list_ascii_of_string acc) -> sep c = false) ->
  forall piece, In piece (GalleryFilters.split_go sep in_run acc str) ->
  forall c, In c (String.list_ascii_of_string piece) -> sep c = false.
Proof.
  revert in_run acc. induction str as [|c str IH]; intros in_run acc Hacc.
  - cbn. intros piece [<-|[]]. exact Hacc.
  - cbn [GalleryFilters.split_go]. destruct (sep c) eqn:E.
    + destruct in_run.
      * apply IH, Hacc.
      * intros piece [<-|Hin]; [exact Hacc|].
        revert piece Hin. apply IH. intros c' [].
    + apply IH. intros c' Hin.
      assert (Happ : forall a b,
                String.list_ascii_of_string (a +:+ b)
                = String.list_ascii_of_string a ++ String.list_ascii_of_string b).
      { induction a as [|x a IHa]; intros b; [reflexivity|].
        change (String x a +:+ b) with (String x (a +:+ b)).
        cbn. rewrite IHa. reflexivity. }
      rewrite Happ in Hin. apply in_app_or in Hin.
      destruct Hin as [Hin|[<-|[]]]; [apply Hacc, Hin | exact E].
Qed.

(** X22. The tag list is cut at commas, backslashes and the letter s, which
    is how the separator's character class reads.  So when lower-casing
    changes neither the pieces of an item's tag list nor the filter
    value, a filter value that contains one of these characters (any
    word with an s in it) matches no item. *)
Theorem filter_with_s_never_matches (item : node) (filter : string) :
  filter <> "all" ->
  toLowerCase filter = filter ->
  (forall piece,
     In piece (GalleryFilters.split GalleryFilters.is_separator
                 (default "" (Js.or (getAttribute item "data-tags")
                                (Some "")))) ->
     toLowerCase piece = piece) ->
  existsb GalleryFilters.is_separator (String.list_ascii_of_string filter) = true ->
  GalleryFilters.matchFilter toLowerCase item filter = false.
Proof.
  intros Hall Hf Hpieces Hsep. unfold GalleryFilters.matchFilter.
  destruct (String.eqb_spec filter "all"); [contradiction|].
  unfold GalleryFilters.tags_of.
  set (pieces := GalleryFilters.split _ _) in *.
  apply not_true_is_false. intros Hex.
  apply existsb_exists in Hex. destruct Hex as (tag & Hin & Heq).
  apply String.eqb_eq in Heq.
  apply in_map_iff in Hin. destruct Hin as (piece & Hlow & Hin).
  apply filter_In in Hin. destruct Hin as [Hin _].
  rewrite (Hpieces piece Hin) in Hlow. rewrite Hf in Heq.
  apply existsb_exists in Hsep. destruct Hsep as (c & Hc & Hcs).
  assert (Hno : GalleryFilters.is_separator c = false).
  { apply (split_go_no_separator GalleryFilters.is_separator false "" _
             ltac:(intros ? []) piece Hin).
    rewrite Hlow, <- Heq. exact Hc. }
  congruence.
Qed.

(** X23. The "all" filter matches every item, and an item without tags (no
    [data-tags], or an empty one) matches no other filter. *)
Theorem matchFilter_all_and_untagged (item : node) (filter : string) :
  GalleryFilters.matchFilter toLowerCase item "all" = true
  /\ (Js.truthy (getAttribute item "data-tags") = false ->
      filter <> "all" ->
      GalleryFilters.matchFilter toLowerCase item filter = false).
Proof.
  split; [reflexivity|].
  intros Hno Hne. unfold GalleryFilters.matchFilter, GalleryFilters.tags_of.
  destruct (String.eqb_spec filter "all"); [contradiction|].
  unfold Js.or. rewrite Hno. reflexivity.
Qed.

End FilterProperties.

Lemma filter_with_s_never_matches_witness :
  let item := Node 60%nat "div"
                (Sample.attrs_of [("data-tags", "nature,sunset")]) [] "" [] in
  GalleryFilters.tags_of (fun x => x) item = ["nature"; "un"; "et"]
  /\ GalleryFilters.matchFilter (fun x => x) item "sunset" = false
  /\ GalleryFilters.matchFilter (fun x => x) item "nature" = true.
Proof.
  cbn zeta. split; [reflexivity|]. split; [|reflexivity].
  apply (filter_with_s_never_matches (fun x => x)).
  - discriminate.
  - reflexivity.
  - reflexivity.
  - reflexivity.
Defined.

Lemma matchFilter_all_and_untagged_witness :
  GalleryFilters.matchFilter (fun x => x) Sample.dog "nature" = false.
Proof.
  refine (proj2 (matchFilter_all_and_untagged (fun x => x) Sample.dog
                   "nature") _ _).
  - reflexivity.
  - discriminate.
Defined.

Section ApplyFilterProperties.
Variable toLowerCase : string -> string.
Variable grefs : GalleryFilters.gallery_refs.

Lemma forEach_cons {B} (f : B -> action) (x : B) (l : list B) (s : state) :
  run (GalleryFilters.forEach f (x :: l)) s
  = run (GalleryFilters.forEach f l) (run (f x) s).
Proof. cbn [GalleryFilters.forEach]. apply run_andThen. Qed.

Lemma forEach_frame {B} (f : B -> action) (l : list B) (s : state)
  (key : elem * string) :
  (forall x s0, In x l -> attr (run (f x) s0) !! key = attr s0 !! key) ->
  attr (run (GalleryFilters.forEach f l) s) !! key = attr s !! key.
Proof.
  revert s. induction l as [|x l IH]; intros s Hf; [reflexivity|].
  rewrite forEach_cons, IH.
  - apply Hf. left. reflexivity.
  - intros y s0 Hy. apply Hf. right. exact Hy.
Qed.

Lemma forEach_text_out {B} (f : B -> action) (l : list B) (s : state) :
  (forall x s0, text (run (f x) s0) = text s0 /\ out (f x) s0 = []) ->
  text (run (GalleryFilters.forEach f l) s) = text s
  /\ out (GalleryFilters.forEach f l) s = [].
Proof.
  intros Hf. revert s. induction l as [|x l IH]; intros s; [auto|].
  rewrite forEach_cons. cbn [GalleryFilters.forEach]. rewrite out_andThen.
  destruct (IH (run (f x) s)) as [-> ->]. destruct (Hf x s) as [-> ->]. auto.
Qed.

Lemma toggleAttribute_text_out (el : elem) (k : string) (force : bool)
  (s : state) :
  text (run (Widgets.toggleAttribute el k force) s) = text s
  /\ out (Widgets.toggleAttribute el k force) s = [].
Proof.
  unfold run, out, Widgets.toggleAttribute, hasAttribute, setAttribute,
    removeAttribute, update, skip.
  destruct force; [destruct (bool_decide _)|]; auto.
Qed.

Lemma sync_item_other (value : string) (item : node) (s : state)
  (key : elem * string) :
  key <> (nid item, "data-hidden") ->
  attr (run (GalleryFilters.sync_item toLowerCase value item) s) !! key
  = attr s !! key.
Proof. apply toggleAttribute_other. Qed.

Lemma sync_button_other (value : string) (btn : node) (s : state)
  (key : elem * string) :
  key <> (nid btn, "aria-pressed") -> key <> (nid btn, "data-active") ->
  attr (run (GalleryFilters.sync_button value btn) s) !! key = attr s !! key.
Proof.
  intros H1 H2. unfold GalleryFilters.sync_button. rewrite run_andThen.
  rewrite toggleAttribute_other by assumption. cbn.
  apply lookup_insert_ne. congruence.
Qed.

Lemma items_loop_hidden (value : string) (l : list node) (item : node)
  (s : state) :
  NoDup (List.map nid l) -> In item l ->
  is_Some (attr (run (GalleryFilters.forEach
                        (GalleryFilters.sync_item toLowerCase value) l) s)
           !! (nid item, "data-hidden"))
  <-> GalleryFilters.matchFilter toLowerCase item value = false.
Proof.
  revert s. induction l as [|x l IH]; intros s Hnd Hin; [destruct Hin|].
  cbn [List.map] in Hnd. apply NoDup_cons in Hnd as [Hx Hnd].
  rewrite forEach_cons. destruct Hin as [->|Hin].
  - rewrite forEach_frame.
    + unfold GalleryFilters.sync_item. rewrite toggleAttribute_lookup.
      destruct (GalleryFilters.matchFilter toLowerCase item value);
        cbn; split; congruence.
    + intros y s0 Hy. apply sync_item_other. intros Heq.
      apply Hx. apply list_elem_of_In, in_map_iff. exists y.
      split; [congruence | exact Hy].
  - apply IH; assumption.
Qed.

Lemma buttons_loop_pressed (value : string) (l : list node) (btn : node)
  (s : state) :
  NoDup (List.map nid l) -> In btn l ->
  let s' := run (GalleryFilters.forEach (GalleryFilters.sync_button value) l)
              s in
  let active :=
    String.eqb (default "all" (Js.or (getAttribute btn "data-filter")
                                 (Some "all"))) value in
  attr s' !! (nid btn, "aria-pressed") = Some (Widgets.bool_text active)
  /\ (is_Some (attr s' !! (nid btn, "data-active")) <-> active = true).
Proof.
  cbn zeta. revert s. induction l as [|x l IH]; intros s Hnd Hin;
    [destruct Hin|].
  cbn [List.map] in Hnd. apply NoDup_cons in Hnd as [Hx Hnd].
  rewrite forEach_cons. destruct Hin as [->|Hin].
  - assert (Hother : forall k y s0, In y l ->
              attr (run (GalleryFilters.sync_button value y) s0)
                !! (nid btn, k) = attr s0 !! (nid btn, k)).
    { intros k y s0 Hy. apply sync_button_other; intros Heq;
        apply Hx; apply list_elem_of_In, in_map_iff; exists y;
        (split; [congruence | exact Hy]). }
    rewrite !forEach_frame by (intros; apply Hother; assumption).
    unfold GalleryFilters.sync_button. rewrite run_andThen. split.
    + rewrite toggleAttribute_other by congruence. cbn.
      apply lookup_insert_eq.
    + apply toggleAttribute_lookup.
  - apply IH; assumption.
Qed.

Lemma count_and_announce_attr (cn : option elem) (v m : string) (b : bool)
  (s : state) :
  attr (run (when b (Utils.liveRegion m Polite))
          (run match cn with
               | Some c => setTextContent c v
               | None => skip
               end s)) = attr s.
Proof. destruct b, cn; reflexivity. Qed.

(** X24. After [applyFilter(value, announce)] over items with distinct
    identities, an item carries [data-hidden] exactly when it does not
    match the filter; the count target reads the number of matching
    items; and the only output is the announcement of that number,
    made when [announce] is set. *)
Theorem applyFilter_hides_non_matching (items : list node) (value : string)
  (announce : bool) (s : state) :
  NoDup (List.map nid items) ->
  let s' := run (GalleryFilters.applyFilter toLowerCase grefs items value
                   announce) s in
  let count := GalleryFilters.visibleCount toLowerCase value items in
  (forall item, In item items ->
     (is_Some (attr s' !! (nid item, "data-hidden"))
      <-> GalleryFilters.matchFilter toLowerCase item value = false))
  /\ (forall c, GalleryFilters.countNode grefs = Some c ->
        text s' !! c = Some (Js.num count))
  /\ out (GalleryFilters.applyFilter toLowerCase grefs items value announce) s
     = (if announce
        then [Announce Polite (GalleryFilters.count_message count value)]
        else []).
Proof.
  intros Hnd. cbn zeta. unfold GalleryFilters.applyFilter.
  rewrite !run_andThen, !out_andThen.
  set (s1 := run match GalleryFilters.filters grefs with
                 | Some f => _
                 | None => skip
                 end s).
  assert (Hb : out match GalleryFilters.filters grefs with
                   | Some f =>
                       GalleryFilters.forEach
                         (GalleryFilters.sync_button value)
                         (Utils.qsa f [ByAttr "data-filter"])
                   | None => skip
                   end s = []).
  { destruct (GalleryFilters.filters grefs); [|reflexivity].
    apply forEach_text_out. intros x s0.
    unfold GalleryFilters.sync_button. rewrite run_andThen, out_andThen.
    destruct (toggleAttribute_text_out (nid x) "data-active"
                (String.eqb (default "all"
                               (Js.or (getAttribute x "data-filter")
                                  (Some "all"))) value)
                (run (setAttribute (nid x) "aria-pressed"
                        (Widgets.bool_text
                           (String.eqb (default "all"
                                          (Js.or (getAttribute x "data-filter")
                                             (Some "all"))) value))) s0))
      as [-> ->].
    auto. }
  assert (Hi : out (GalleryFilters.forEach
                      (GalleryFilters.sync_item toLowerCase value) items) s1
               = []).
  { apply forEach_text_out. intros x s0. apply toggleAttribute_text_out. }
  rewrite Hb, Hi. cbn [app].
  set (s2 := run (GalleryFilters.forEach _ items) s1).
  split; [|split].
  - intros item Hin.
    rewrite count_and_announce_attr. apply items_loop_hidden; assumption.
  - intros c Hc. rewrite Hc. destruct announce; cbn; apply lookup_insert_eq.
  - destruct (GalleryFilters.countNode grefs), announce; reflexivity.
Qed.

(** X25. After [applyFilter(value, _)], among filter buttons with distinct
    identities, a button's [aria-pressed] is "true" when its
    [data-filter] (or "all" when it has none) equals the value and
    "false" otherwise, and it carries [data-active] exactly in the
    first case. *)
Theorem applyFilter_presses_matching_button (items : list node)
  (value : string) (announce : bool) (f btn : node) (s : state) :
  GalleryFilters.filters grefs = Some f ->
  NoDup (List.map nid (Utils.qsa f [ByAttr "data-filter"])) ->
  In btn (Utils.qsa f [ByAttr "data-filter"]) ->
  let s' := run (GalleryFilters.applyFilter toLowerCase grefs items value
                   announce) s in
  let active :=
    String.eqb (default "all" (Js.or (getAttribute btn "data-filter")
                                 (Some "all"))) value in
  attr s' !! (nid btn, "aria-pressed") = Some (Widgets.bool_text active)
  /\ (is_Some (attr s' !! (nid btn, "data-active")) <-> active = true).
Proof.
  intros Hf Hnd Hin. cbn zeta. unfold GalleryFilters.applyFilter.
  rewrite !run_andThen, Hf.
  set (s1 := run (GalleryFilters.forEach _ (Utils.qsa f _)) s).
  rewrite count_and_announce_attr.
  assert (Hrest : forall k, k <> "data-hidden" ->
            attr (run (GalleryFilters.forEach
                         (GalleryFilters.sync_item toLowerCase value)
                         items) s1) !! (nid btn, k)
            = attr s1 !! (nid btn, k)).
  { intros k Hk. apply forEach_frame. intros x s0 _.
    apply sync_item_other. congruence. }
  rewrite !Hrest by discriminate.
  apply (buttons_loop_pressed value _ btn s Hnd Hin).
Qed.

End ApplyFilterProperties.

Lemma applyFilter_hides_non_matching_witness :
  let tagged (i : nat) (tags : string) :=
    Node i "div" (Sample.attrs_of [("data-gallery-item", "");
                                   ("data-tags", tags)]) [] "" [] in
  let items := [tagged 71%nat "nature,city"; tagged 72%nat "city";
                tagged 73%nat "nature"] in
  let grefs := GalleryFilters.mkGalleryRefs None (Some 9%nat) in
  let s' := run (GalleryFilters.applyFilter (fun x => x) grefs items "nature"
                   true) (Sample.initial []) in
  text s' !! 9%nat = Some "2"
  /\ attr s' !! (72%nat, "data-hidden") = Some ""
  /\ out (GalleryFilters.applyFilter (fun x => x) grefs items "nature" true)
       (Sample.initial [])
     = [Announce Polite "2 items matching nature shown"].
Proof.
  cbn zeta.
  destruct (applyFilter_hides_non_matching (fun x => x)
              (GalleryFilters.mkGalleryRefs None (Some 9%nat))
              [Node 71%nat "div"
                 (Sample.attrs_of [("data-gallery-item", "");
                                   ("data-tags", "nature,city")]) [] "" [];
               Node 72%nat "div"
                 (Sample.attrs_of [("data-gallery-item", "");
                                   ("data-tags", "city")]) [] "" [];
               Node 73%nat "div"
                 (Sample.attrs_of [("data-gallery-item", "");
                                   ("data-tags", "nature")]) [] "" []]
              "nature" true (Sample.initial []))
    as (_ & Hcount & Hout).
  - apply (bool_decide_unpack _). vm_compute. exact I.
  - split; [exact (Hcount 9%nat eq_refl)|]. split; [reflexivity | exact Hout].
Defined.

Lemma applyFilter_presses_matching_button_witness :
  let button (i : nat) (v : string) :=
    Node i "button" (Sample.attrs_of [("data-filter", v)]) [] "" [] in
  let bar := Node 80%nat "div" ∅ []
               "" [button 81%nat "all"; button 82%nat "nature"] in
  let grefs := GalleryFilters.mkGalleryRefs (Some bar) None in
  let s' := run (GalleryFilters.applyFilter (fun x => x) grefs [] "nature"
                   false) (Sample.initial []) in
  attr s' !! (82%nat, "aria-pressed") = Some "true"
  /\ attr s' !! (81%nat, "aria-pressed") = Some "false".
Proof.
  cbn zeta. split; [|reflexivity].
  refine (proj1 (applyFilter_presses_matching_button (fun x => x)
                   (GalleryFilters.mkGalleryRefs
                      (Some (Node 80%nat "div" ∅ [] ""
                               [Node 81%nat "button"
                                  (Sample.attrs_of [("data-filter", "all")])
                                  [] "" [];
                                Node 82%nat "button"
                                  (Sample.attrs_of [("data-filter", "nature")])
                                  [] "" []])) None)
                   [] "nature" false _
                   (Node 82%nat "button"
                      (Sample.attrs_of [("data-filter", "nature")]) [] "" [])
                   (Sample.initial []) eq_refl _ _)).
  - apply (bool_decide_unpack _). vm_compute. exact I.
  - right. left. reflexivity.
Defined.

(** ** utils.js: clamp *)

(** X26. With ordered bounds [clamp] lands between them and leaves a value
    that is already between them alone; with the bounds the wrong way
    round it returns the upper argument whatever the value. *)
Theorem clamp_bounds (n lo hi : Z) :
  (lo <= hi ->
   lo <= Utils.clamp n lo hi <= hi
   /\ (lo <= n <= hi -> Utils.clamp n lo hi = n))
  /\ (hi < lo -> Utils.clamp n lo hi = hi).
Proof. unfold Utils.clamp. split; [intros H; split|]; lia. Qed.

Lemma clamp_bounds_witness :
  Utils.clamp 7 0 2 = 2 /\ 0 <= Utils.clamp (-5) 0 2 <= 2.
Proof.
  split; [reflexivity|].
  exact (proj1 (proj1 (clamp_bounds (-5) 0 2) ltac:(lia))).
Defined.

(** ** lightbox.js: where the focus lands after opening *)

(** X27. Once the microtask queued by the trap has run, the focus is on the
    close control if there is one, else on the dialog if there is one,
    else on the first tabbable element of the root, else on the root
    itself -- provided that element can take the focus. *)
Theorem initial_focus_after_open (rf : refs) (doc : document) (r : elem)
  (idx : Z) (s : state) :
  root rf = Some r -> items (hydrated doc s) <> [] -> microtasks s = [] ->
  let target :=
    match closeBtn rf, dialog rf with
    | Some b, _ => b
    | None, Some d => d
    | None, None => default r (head (tabbables doc r))
    end in
  can_focus doc target = true ->
  let settled :=
    run (Utils.drain_microtasks doc) (run (Lightbox.open rf doc idx) s) in
  activeElement settled = Some target /\ microtasks settled = [].
Proof.
  intros Hr Hne Hm. cbn zeta. intros Hf.
  destruct (open_fields rf doc r idx s Hr Hne)
    as (_ & _ & _ & _ & _ & _ & _ & Hmt).
  cbn zeta in Hmt. rewrite Hm in Hmt. cbn [app] in Hmt.
  unfold Utils.drain_microtasks.
  change (run (fun s0 => Utils.run_focus_tasks doc (microtasks s0)
                           (with_microtasks [] s0)) ?x)
    with (run (Utils.run_focus_tasks doc (microtasks x))
            (with_microtasks [] x)).
  rewrite Hmt. cbn [Utils.run_focus_tasks]. rewrite run_andThen.
  unfold Utils.run_focus_task. cbn [ft_initial ft_container].
  assert (Ht : default (default r (dialog rf))
                 (Js.or_elem (Js.or_elem (closeBtn rf) (dialog rf))
                    (head (tabbables doc (default r (dialog rf)))))
               = match closeBtn rf, dialog rf with
                 | Some b, _ => b
                 | None, Some d => d
                 | None, None => default r (head (tabbables doc r))
                 end).
  { destruct (closeBtn rf), (dialog rf); reflexivity. }
  rewrite Ht. unfold run, Utils.focus, update, skip. cbn. rewrite Hf. cbn.
  auto.
Qed.

Lemma initial_focus_after_open_witness :
  activeElement
    (run (Utils.drain_microtasks Sample.page)
       (run (Lightbox.open Sample.the_refs Sample.page 0) (Sample.initial [])))
  = Some 102%nat.
Proof.
  refine (proj1 (initial_focus_after_open Sample.the_refs Sample.page 100%nat
                   0 (Sample.initial []) _ _ _ _)).
  - reflexivity.
  - vm_compute. discriminate.
  - reflexivity.
  - reflexivity.
Defined.

(** * The listeners of [initLightbox] at work *)

(** ** Clicks *)

Lemma nav_attr_other (rf : refs) (s : state) (e : elem) (k : string) :
  k <> "src" -> k <> "alt" ->
  attr (run (Lightbox.next rf) s) !! (e, k) = attr s !! (e, k)
  /\ attr (run (Lightbox.prev rf) s) !! (e, k) = attr s !! (e, k).
Proof.
  intros H1 H2. destruct (items s) as [|c l] eqn:E.
  - unfold run, Lightbox.next, Lightbox.prev. rewrite E. cbn. auto.
  - assert (Hne : items s <> []) by (rewrite E; discriminate).
    rewrite next_run, prev_run by assumption.
    rewrite !updateUI_attr_other by assumption. cbn. auto.
Qed.

Section ClickProperties.
Variable rf : refs.
Variable doc : document.
Variable r : elem.
Hypothesis Hroot : root rf = Some r.

Local Abbreviation closes := (click_calls_close rf r).

Lemma when_run (b : bool) (a : action) (s : state) :
  run (when b a) s = if b then run a s else s.
Proof. destruct b; reflexivity. Qed.

Lemma markers_closed (s s' : state) :
  (forall k, k <> "src" -> k <> "alt" ->
             attr s' !! (r, k) = attr s !! (r, k)) ->
  (is_closed r s -> is_closed r s') /\ (is_open r s -> is_open r s').
Proof.
  intros H. unfold is_closed, is_open.
  rewrite !H by discriminate. tauto.
Qed.

Lemma backdrop_handler_cases (target : elem) (s : state) :
  (target = r \/ Some target = backdrop rf ->
   Lightbox.onBackdropClick rf doc target s = Lightbox.close rf doc s)
  /\ (target <> r -> Some target <> backdrop rf ->
      Lightbox.onBackdropClick rf doc target s = (s, [])).
Proof.
  unfold Lightbox.onBackdropClick. rewrite Hroot. split.
  - intros [-> | Hb].
    + rewrite bool_decide_eq_true_2 by reflexivity. reflexivity.
    + rewrite (bool_decide_eq_true_2 (Some target = backdrop rf)) by assumption.
      rewrite orb_true_r. reflexivity.
  - intros Hn1 Hn2.
    rewrite bool_decide_eq_false_2 by congruence.
    rewrite bool_decide_eq_false_2 by assumption. reflexivity.
Qed.

(** What the listeners on one element do to the markers. *)
Lemma click_listeners_markers (target el : elem) (s : state) :
  let s' := run (Events.click_listeners rf doc target el) s in
  (is_closed r s -> is_closed r s')
  /\ (closes target el -> is_closed r s')
  /\ (~ closes target el -> is_open r s -> is_open r s').
Proof.
  cbn zeta. unfold Events.click_listeners. rewrite Hroot.
  rewrite !run_andThen, !when_run.
  set (s1 := if Events.is_ref (closeBtn rf) el
             then run (Lightbox.close rf doc) s else s).
  set (s2 := if Events.is_ref (prevBtn rf) el
             then run (Lightbox.prev rf) s1 else s1).
  set (s3 := if Events.is_ref (nextBtn rf) el
             then run (Lightbox.next rf) s2 else s2).
  assert (H12 : (is_closed r s1 -> is_closed r s2)
                /\ (is_open r s1 -> is_open r s2)).
  { subst s2. destruct (Events.is_ref (prevBtn rf) el); [|tauto].
    apply markers_closed. intros k Hk1 Hk2.
    apply (nav_attr_other rf s1 r k Hk1 Hk2). }
  assert (H23 : (is_closed r s2 -> is_closed r s3)
                /\ (is_open r s2 -> is_open r s3)).
  { subst s3. destruct (Events.is_ref (nextBtn rf) el); [|tauto].
    apply markers_closed. intros k Hk1 Hk2.
    apply (nav_attr_other rf s2 r k Hk1 Hk2). }
  assert (Hlast : forall b : bool,
            (is_closed r s3 ->
             is_closed r (if b then run (Lightbox.onBackdropClick rf doc target) s3
                          else s3))).
  { intros [|] Hc; [|exact Hc].
    destruct (decide (target = r)) as [Ht|Ht];
      [|destruct (decide (Some target = backdrop rf)) as [Hb|Hb]].
    - unfold run. rewrite (proj1 (backdrop_handler_cases target s3)) by auto.
      apply (close_is_closed rf doc r s3 Hroot).
    - unfold run. rewrite (proj1 (backdrop_handler_cases target s3)) by auto.
      apply (close_is_closed rf doc r s3 Hroot).
    - unfold run. rewrite (proj2 (backdrop_handler_cases target s3)) by auto.
      exact Hc. }
  split; [|split].
  - intros Hc. apply Hlast, H23, H12. subst s1.
    destruct (Events.is_ref (closeBtn rf) el); [|exact Hc].
    apply (close_is_closed rf doc r s Hroot).
  - intros [Hbtn | (-> & Hmatch)].
    + apply Hlast, H23, H12. subst s1. unfold Events.is_ref.
      rewrite bool_decide_eq_true_2 by assumption.
      apply (close_is_closed rf doc r s Hroot).
    + unfold Events.is_ref at 1. rewrite bool_decide_eq_true_2 by reflexivity.
      unfold run at 1.
      rewrite (proj1 (backdrop_handler_cases target s3)) by assumption.
      apply (close_is_closed rf doc r s3 Hroot).
  - intros Hno Ho.
    assert (H1 : is_open r s1).
    { subst s1. unfold Events.is_ref.
      rewrite bool_decide_eq_false_2; [exact Ho|].
      intros Hbtn. apply Hno. left. exact Hbtn. }
    assert (H3 : is_open r s3) by (apply (proj2 H23), (proj2 H12), H1).
    destruct (Events.is_ref (Some r) el) eqn:E; [|exact H3].
    apply bool_decide_eq_true_1 in E. injection E as <-.
    unfold run.
    rewrite (proj2 (backdrop_handler_cases target s3)); [exact H3| |];
      intros Heq; apply Hno; right; auto.
Qed.

Lemma bubble_markers (target : elem) (path : list elem) (s : state) :
  let s' := run (Events.bubble rf doc target path) s in
  (is_closed r s -> is_closed r s')
  /\ ((exists el, In el path /\ closes target el) -> is_closed r s')
  /\ ((forall el, In el path -> ~ closes target el) ->
      is_open r s -> is_open r s').
Proof.
  cbn zeta. revert s. induction path as [|el path IH]; intros s.
  - cbn. split; [tauto|]. split; [|tauto]. intros (el & [] & _).
  - cbn [Events.bubble]. rewrite run_andThen.
    destruct (click_listeners_markers target el s) as (Hc & Hy & Hn).
    cbn zeta in Hc, Hy, Hn.
    destruct (IH (run (Events.click_listeners rf doc target el) s))
      as (IHc & IHy & IHn).
    split; [|split].
    + intros H. apply IHc, Hc, H.
    + intros (x & [<-|Hin] & Hx).
      * apply IHc, Hy, Hx.
      * apply IHy. eauto.
    + intros Hall Ho. apply IHn.
      * intros x Hx. apply Hall. right. exact Hx.
      * apply Hn; [|exact Ho]. apply Hall. left. reflexivity.
Qed.

(** C9, as the code has it.  The root-level click handler calls
    [close()] exactly when the click target is the root itself or the
    backdrop element (an identity test, not a containment test): for
    such a target it behaves as [close()], for any other target it
    returns the state unchanged.  A click on an open viewer that
    reaches the root closes it if and only if its target is the root or
    the backdrop, or its path passes the close control, whose own click
    listener calls [close()]; every other target inside the dialog
    leaves the viewer open. *)
Theorem click_closes_viewer (target : elem) (ancestors : list elem)
  (s : state) :
  (target = r \/ Some target = backdrop rf ->
   Lightbox.onBackdropClick rf doc target s = Lightbox.close rf doc s)
  /\ (target <> r -> Some target <> backdrop rf ->
      Lightbox.onBackdropClick rf doc target s = (s, []))
  /\ (is_open r s -> In r (target :: ancestors) ->
      let s' := run (Events.click rf doc (target :: ancestors)) s in
      (is_closed r s'
       <-> target = r \/ Some target = backdrop rf
           \/ exists b, closeBtn rf = Some b /\ In b (target :: ancestors))
      /\ (is_open r s'
          <-> ~ (target = r \/ Some target = backdrop rf
                 \/ exists b, closeBtn rf = Some b
                              /\ In b (target :: ancestors)))).
Proof.
  destruct (backdrop_handler_cases target s) as [Hyes Hno].
  split; [exact Hyes|]. split; [exact Hno|].
  intros Ho Hin. cbn zeta. cbn [Events.click].
  destruct (bubble_markers target (target :: ancestors) s) as (_ & Hy & Hn).
  cbn zeta in Hy, Hn.
  set (s' := run (Events.bubble rf doc target (target :: ancestors)) s) in *.
  set (cond := target = r \/ Some target = backdrop rf
               \/ exists b, closeBtn rf = Some b
                            /\ In b (target :: ancestors)).
  assert (Hiff : cond
                 <-> exists el, In el (target :: ancestors)
                                /\ closes target el).
  { subst cond. unfold click_calls_close. split.
    - intros [Ht | [Hb | (b & Hbtn & Hbin)]].
      + exists r. split; [exact Hin|]. right. auto.
      + exists r. split; [exact Hin|]. right. auto.
      + exists b. split; [exact Hbin|]. left. exact Hbtn.
    - intros (el & Hel & [Hbtn | (-> & [Ht|Hb])]); eauto. }
  assert (Hdec : cond \/ ~ cond).
  { subst cond.
    destruct (decide (target = r)); [auto|].
    destruct (decide (Some target = backdrop rf)); [auto|].
    destruct (closeBtn rf) as [b|] eqn:Hb.
    - destruct (in_dec Nat.eq_dec b (target :: ancestors)) as [Hbin|Hbin].
      + left. right. right. eauto.
      + right. intros [?|[?|(b' & Hb' & Hin')]]; try contradiction.
        injection Hb' as <-. contradiction.
    - right. intros [?|[?|(b' & Hb' & _)]]; try contradiction. discriminate. }
  assert (Hexcl : is_open r s' -> is_closed r s' -> False).
  { intros (Hh & _) ([v Hv] & _). congruence. }
  destruct Hdec as [Hc | Hnc].
  - assert (Hcl : is_closed r s') by (apply Hy, Hiff, Hc).
    split; split.
    + intros _. exact Hc.
    + intros _. exact Hcl.
    + intros Hop. exfalso. exact (Hexcl Hop Hcl).
    + intros Hn'. contradiction.
  - assert (Hop : is_open r s').
    { apply Hn; [|exact Ho]. intros el Hel Hcl. apply Hnc, Hiff. eauto. }
    split; split.
    + intros Hcl. exfalso. exact (Hexcl Hop Hcl).
    + intros Hc. contradiction.
    + intros _. exact Hnc.
    + intros _. exact Hop.
Qed.

End ClickProperties.

Lemma click_closes_viewer_witness :
  let opened :=
    run (Lightbox.open Sample.the_refs Sample.page 0) (Sample.initial []) in
  is_closed 100%nat
    (run (Events.click Sample.the_refs Sample.page [108; 100]%nat) opened)
  /\ is_open 100%nat
       (run (Events.click Sample.the_refs Sample.page [103; 101; 100]%nat)
          opened).
Proof.
  cbn zeta.
  assert (Ho : is_open 100%nat
                 (run (Lightbox.open Sample.the_refs Sample.page 0)
                    (Sample.initial []))).
  { vm_compute. auto. }
  split.
  - destruct (click_closes_viewer Sample.the_refs Sample.page 100%nat eq_refl
                108%nat [100%nat]
                (run (Lightbox.open Sample.the_refs Sample.page 0)
                   (Sample.initial []))) as (_ & _ & Hpage).
    destruct (Hpage Ho) as [Hcl _].
    + right. left. reflexivity.
    + apply Hcl. right. left. reflexivity.
  - destruct (click_closes_viewer Sample.the_refs Sample.page 100%nat eq_refl
                103%nat [101; 100]%nat
                (run (Lightbox.open Sample.the_refs Sample.page 0)
                   (Sample.initial []))) as (_ & _ & Hpage).
    destruct (Hpage Ho) as [_ Hop].
    + right. right. left. reflexivity.
    + apply Hop. intros [H|[H|(b & Hb & Hin)]]; try discriminate.
      injection Hb as <-. cbn in Hin.
      destruct Hin as [H|[H|[H|[]]]]; discriminate.
Defined.

(** C9 as stated fails: a click on the close control, an element
    inside the dialog that is neither the root nor the backdrop, closes
    the open viewer. *)
Lemma click_inside_dialog_closes :
  let opened :=
    run (Lightbox.open Sample.the_refs Sample.page 0) (Sample.initial []) in
  let path := [102; 101; 100]%nat in
  closeBtn Sample.the_refs = Some 102%nat
  /\ dialog Sample.the_refs = Some 101%nat
  /\ root Sample.the_refs <> Some 102%nat
  /\ backdrop Sample.the_refs <> Some 102%nat
  /\ is_open 100%nat opened
  /\ is_closed 100%nat
       (run (Events.click Sample.the_refs Sample.page path) opened).
Proof.
  cbn zeta. repeat split; try reflexivity; try discriminate.
  eexists. reflexivity.
Qed.

(** ** Key presses *)

Section KeyProperties.
Variable rf : refs.
Variable doc : document.
Variable contains : elem -> elem -> bool.




End KeyProperties.

